(** * aeron-go: log-buffer mapping and client shutdown

    A shallow embedding of [logbuffer.Wrap], [LogBuffers.Meta],
    [LogBuffers.Buffer], [LogBuffers.Close] (package [logbuffer]) and of
    [Aeron.Close], [Aeron.AddSubscription] and [Aeron.AddPublication]
    (package [aeron]), with the properties their specification states
    about them.

    Go code that calls into the operating system is embedded in a small
    monad [Go]: a computation threads the history of the calls made so far
    and either returns a value or panics.  The operating system itself
    (which files exist, where a region gets mapped, which unmap fails) is a
    parameter of type [Env]. *)

From Stdlib Require Import ZArith Lia String.
From stdpp Require Import base option list.

Local Open Scope string_scope.
Local Open Scope list_scope.
Local Open Scope Z_scope.

(** ** Machine integers

    Go's fixed-width integers are embedded in [Z]; every conversion and
    every operation that can wrap is written with the wrap-around spelled
    out.  [int] and [uintptr] are taken to be 64 bits wide. *)

Module machine.

(** conversion to a signed 64-bit integer (two's complement) *)
Definition int64 (z : Z) : Z := (z + 2 ^ 63) mod 2 ^ 64 - 2 ^ 63.

(** conversion to a signed 32-bit integer *)
Definition int32 (z : Z) : Z := (z + 2 ^ 31) mod 2 ^ 32 - 2 ^ 31.

(** conversion to an unsigned pointer-sized integer *)
Definition uintptr (z : Z) : Z := z mod 2 ^ 64.

(** [int] on the 64-bit platforms the mapping code targets *)
Definition int (z : Z) : Z := int64 z.

End machine.

(** ** Errors, mappings and the history of system calls *)

(** A non-nil Go [error]; a nil [error] is [None] of [option error]. *)
Definition error : Type := string.

(** Modelled from the spec: [memmap.File] is "a handle with a raw base
    address and length".  A [*memmap.File] is an [option File], the nil
    pointer being [None]. *)
Record File : Type := mkFile { base : Z; size : Z }.

Inductive event : Type :=
| MapExistingEv (fileName : string) (offset length : Z) (res : error + File)
| UnmapEv (mmap : File) (res : option error)
| ConductorCloseEv (res : option error)
| ErrorHandlerEv (err : error).

(** What the code cannot decide by itself: the size of a file, the outcome
    of a mapping or unmapping request, and whether the client conductor
    shuts down cleanly.  Each answer may depend on everything that happened
    before. *)
Record Env : Type := mkEnv {
  env_stat : string -> error + Z;
  env_mmap : list event -> string -> Z -> Z -> error + File;
  env_munmap : list event -> File -> option error;
  env_conductor_close : list event -> option error
}.

(** ** The monad of Go computations *)

Inductive panic_value : Type :=
| PanicError (err : error)         (* panic(err) *)
| PanicString (msg : string)       (* panic("...") *)
| NilDereference                   (* run-time: nil pointer dereference *)
| IndexOutOfRange.                 (* run-time: index out of range *)

Inductive outcome (A : Type) : Type :=
| Return (a : A)
| Panic (p : panic_value).
Arguments Return {A} a.
Arguments Panic {A} p.

Definition Go (A : Type) : Type := list event -> outcome A * list event.

Definition ret {A : Type} (a : A) : Go A := fun tr => (Return a, tr).

Definition bind {A B : Type} (c : Go A) (k : A -> Go B) : Go B :=
  fun tr =>
    match c tr with
    | (Return a, tr') => k a tr'
    | (Panic p, tr') => (Panic p, tr')
    end.

Definition panic {A : Type} (p : panic_value) : Go A := fun tr => (Panic p, tr).

Definition emit (e : event) : Go unit := fun tr => (Return tt, tr ++ [e]).

Definition history : Go (list event) := fun tr => (Return tr, tr).

Declare Scope go_scope.
Delimit Scope go_scope with go.
Notation "x <- c ;; k" := (bind c (fun x => k))
  (at level 100, c at next level, right associativity) : go_scope.
Notation "c ;;; k" := (bind c (fun _ => k))
  (at level 100, right associativity) : go_scope.
Local Open Scope go_scope.

(** [for i := from; i < from + count; i++ { s = body i s }] *)
Fixpoint for_range {S : Type} (from : nat) (count : nat)
    (body : nat -> S -> Go S) (s : S) : Go S :=
  match count with
  | O => ret s
  | Datatypes.S count' => s' <- body from s ;; for_range (Datatypes.S from) count' body s'
  end.

(** [l[i]] on a slice: a run-time panic when [i] is out of range *)
Definition index {A : Type} (l : list A) (i : nat) : Go A :=
  match l !! i with
  | Some a => ret a
  | None => panic IndexOutOfRange
  end.

(** ** Package memmap *)

Module memmap.
Section memmap.
Variable os : Env.

(** Modelled from the spec: "Determine logLength from the filesystem".
    [GetFileSize] has no error result at its call site, so a file that
    cannot be examined is a panic; the size comes back as an [int64]. *)
Definition GetFileSize (fileName : string) : Go Z :=
  match env_stat os fileName with
  | inl err => panic (PanicError err)
  | inr n => ret (machine.int64 n)
  end.

(** Modelled from the spec: "map_existing(path, offset, length) returning
    a handle with a raw base address and length"; it fails with an error
    and no handle. *)
Definition MapExisting (fileName : string) (offset length : Z)
    : Go (error + File) :=
  tr <- history ;;
  let res := env_mmap os tr fileName offset length in
  emit (MapExistingEv fileName offset length res) ;;;
  ret res.

(** Modelled from the spec: the handle exposes its base address; a nil
    handle has none, so asking it is a nil dereference. *)
Definition GetMemoryPtr (mmap : option File) : Go Z :=
  match mmap with
  | Some f => ret (base f)
  | None => panic NilDereference
  end.

(** Modelled from the spec: "close releases the mapping". *)
Definition Close (mmap : option File) : Go (option error) :=
  match mmap with
  | Some f =>
      tr <- history ;;
      let res := env_munmap os tr f in
      emit (UnmapEv f res) ;;;
      ret res
  | None => panic NilDereference
  end.

End memmap.
End memmap.

(** ** Package atomic *)

Module atomic.

(** Modelled from the spec: [atomic.Buffer] is "a view (base, capacity)
    over mapped memory". *)
Record Buffer : Type := mkBuffer { bufferPtr : Z; capacity : Z }.

(** the zero value of the struct: nothing wrapped yet *)
Definition zero : Buffer := {| bufferPtr := 0; capacity := 0 |}.

(** [buf.Wrap(ptr, length)] *)
Definition Wrap (buf : Buffer) (ptr : Z) (length : Z) : Buffer :=
  {| bufferPtr := ptr; capacity := length |}.

(** Modelled from the spec: a byte read at an offset, bounds-checked
    against the capacity ("every access rejects offsets where
    offset + width > capacity").  Memory is a map from addresses to
    bytes. *)
Definition GetUInt8 (memory : Z -> Z) (buf : Buffer) (offset : Z) : option Z :=
  if capacity buf <? offset + 1 then None
  else Some (memory (machine.uintptr (bufferPtr buf + offset))).

End atomic.

(** ** Package logbuffer *)

Module logbuffer.
Import machine.

(** Modelled from the spec: "PartitionCount (fixed, = 3) term buffers". *)
Definition PartitionCount : nat := 3.

(** The index of the metadata buffer: "PartitionLength+1 is the size of the
    buffer array, and the last buffer is the metadata buffer". *)
Definition LogMetaDataSectionIndex : nat := PartitionCount.

(** Modelled from the spec: the typed overlay over the metadata buffer.
    It does not copy the buffer: it keeps the pointer it was given, here
    the index of the buffer in the [buffers] array of the enclosing
    [LogBuffers], and the offset at which its fields start. *)
Module LogBufferMetaData.

Record t : Type := mk { buffer : option nat; offset : Z }.

Definition zero : t := {| buffer := None; offset := 0 |}.

(** [m.Wrap(&owner.buffers[index], offset)] *)
Definition Wrap (m : t) (index : nat) (offset : Z) : t :=
  {| buffer := Some index; offset := offset |}.

(** A byte of the overlay, read through the buffer it points to. *)
Definition GetUInt8 (memory : Z -> Z) (owner : list atomic.Buffer) (m : t)
    (field : Z) : option Z :=
  match buffer m with
  | Some i =>
      match owner !! i with
      | Some buf => atomic.GetUInt8 memory buf (offset m + field)
      | None => None
      end
  | None => None
  end.

End LogBufferMetaData.

Record LogBuffers : Type := mkLogBuffers {
  mmapFiles : list (option File);
  buffers : list atomic.Buffer;          (* [PartitionCount + 1]atomic.Buffer *)
  meta : LogBufferMetaData.t
}.

(** [new(LogBuffers)]: every field has its zero value *)
Definition new_LogBuffers : LogBuffers :=
  {| mmapFiles := [];
     buffers := replicate (PartitionCount + 1) atomic.zero;
     meta := LogBufferMetaData.zero |}.

Definition set_mmapFiles (files : list (option File)) (lb : LogBuffers) : LogBuffers :=
  {| mmapFiles := files; buffers := buffers lb; meta := meta lb |}.

Definition set_meta (m : LogBufferMetaData.t) (lb : LogBuffers) : LogBuffers :=
  {| mmapFiles := mmapFiles lb; buffers := buffers lb; meta := m |}.

(** [lb.buffers[i].Wrap(ptr, length)]: the array element is updated in
    place; an index outside the array is a run-time panic. *)
Definition wrap_buffer (i : nat) (ptr length : Z) (lb : LogBuffers) : Go LogBuffers :=
  match buffers lb !! i with
  | Some buf =>
      ret {| mmapFiles := mmapFiles lb;
             buffers := <[i := atomic.Wrap buf ptr length]> (buffers lb);
             meta := meta lb |}
  | None => panic IndexOutOfRange
  end.

Section logbuffer.
Variables maxSingleMappingSize logMetaDataLength : Z.
Variables TermMinLength termMaxLength : Z.
Variable os : Env.

(** Modelled from the spec: "termLength = (logLength - logMetaDataLength)
    / PartitionCount", in [int64] arithmetic (the division truncates). *)
Definition computeTermLength (logLength : Z) : Z :=
  Z.quot (int64 (logLength - int64 logMetaDataLength)) (int64 (Z.of_nat PartitionCount)).

(** a positive number that is two to the power of its own logarithm *)
Definition isPowerOfTwo (n : Z) : bool := (0 <? n) && (n =? 2 ^ Z.log2 n).

(** Modelled from the spec: a term length is valid when it is a
    "power-of-two, within bounds". *)
Definition validTermLength (termLength : Z) : bool :=
  isPowerOfTwo termLength && (TermMinLength <=? termLength) && (termLength <=? termMaxLength).

(** Modelled from the spec: "validate via checkTermLength"; it has no
    result at its call site, so a term length that fails the validation is
    a panic ([InvalidTermLength]). *)
Definition checkTermLength (termLength : Z) : Go unit :=
  if validTermLength termLength then ret tt
  else panic (PanicString "InvalidTermLength").

(** one mapping of the whole file, the four views carved out of it *)
Definition Wrap_single (fileName : string) (logLength termLength : Z)
    (buffers : LogBuffers) : Go LogBuffers :=
  r <- memmap.MapExisting os fileName 0 0 ;;
  match r with
  | inl err => panic (PanicError err)
  | inr mmap =>
      let buffers := set_mmapFiles [Some mmap] buffers in
      f <- index (mmapFiles buffers) 0 ;;
      p <- memmap.GetMemoryPtr f ;;
      let basePtr := uintptr p in
      buffers <- for_range 0 PartitionCount (fun i buffers =>
          let ptr := uintptr (basePtr + uintptr (int64 (int64 (Z.of_nat i) * termLength))) in
          wrap_buffer i ptr (int32 termLength) buffers) buffers ;;
      let ptr := uintptr (basePtr + uintptr (int64 (logLength - int64 logMetaDataLength))) in
      wrap_buffer LogMetaDataSectionIndex ptr logMetaDataLength buffers
  end.

(** one mapping for the metadata, then one for each term *)
Definition Wrap_multi (fileName : string) (logLength termLength : Z)
    (buffers : LogBuffers) : Go LogBuffers :=
  let buffers := set_mmapFiles (replicate (PartitionCount + 1) None) buffers in
  let metaDataSectionOffset := int64 (termLength * int64 (Z.of_nat PartitionCount)) in
  let metaDataSectionLength := int (int64 (logLength - metaDataSectionOffset)) in
  r <- memmap.MapExisting os fileName metaDataSectionOffset metaDataSectionLength ;;
  match r with
  | inl _ => panic (PanicString "Failed to map the log buffer")
  | inr mmap =>
      let buffers := set_mmapFiles (mmapFiles buffers ++ [Some mmap]) buffers in
      buffers <- for_range 0 PartitionCount (fun i buffers =>
          r <- memmap.MapExisting os fileName
                 (int64 (int64 (Z.of_nat i) * termLength)) (int termLength) ;;
          match r with
          | inl _ => panic (PanicString "Failed to map the log buffer")
          | inr mmap =>
              let buffers := set_mmapFiles (mmapFiles buffers ++ [Some mmap]) buffers in
              f <- index (mmapFiles buffers) (i + 1) ;;
              basePtr <- memmap.GetMemoryPtr f ;;
              wrap_buffer i basePtr (int32 termLength) buffers
          end) buffers ;;
      f <- index (mmapFiles buffers) 0 ;;
      metaDataBasePtr <- memmap.GetMemoryPtr f ;;
      wrap_buffer LogMetaDataSectionIndex metaDataBasePtr logMetaDataLength buffers
  end.

(** [func Wrap(fileName string) *LogBuffers] *)
Definition Wrap (fileName : string) : Go LogBuffers :=
  let buffers := new_LogBuffers in
  logLength <- memmap.GetFileSize os fileName ;;
  let termLength := computeTermLength logLength in
  checkTermLength termLength ;;;
  buffers <- (if logLength <? maxSingleMappingSize
              then Wrap_single fileName logLength termLength buffers
              else Wrap_multi fileName logLength termLength buffers) ;;
  ret (set_meta (LogBufferMetaData.Wrap (meta buffers) PartitionCount 0) buffers).

(** [func (logBuffers *LogBuffers) Meta() *LogBufferMetaData] *)
Definition Meta (logBuffers : LogBuffers) : LogBufferMetaData.t := meta logBuffers.

(** [func (logBuffers *LogBuffers) Buffer(index int) *atomic.Buffer] *)
Definition Buffer (logBuffers : LogBuffers) (i : Z) : Go atomic.Buffer :=
  if i <? 0 then panic IndexOutOfRange else index (buffers logBuffers) (Z.to_nat i).

(** the [range] loop of [Close]: [err] is assigned at every step *)
Fixpoint Close_loop (files : list (option File)) (err : option error)
    : Go (option error) :=
  match files with
  | [] => ret err
  | mmap :: files' => err' <- memmap.Close os mmap ;; Close_loop files' err'
  end.

(** [func (logBuffers *LogBuffers) Close() error]; the receiver is updated
    through its pointer, so the new value of the struct is returned along
    with the error. *)
Definition Close (logBuffers : LogBuffers) : Go (option error * LogBuffers) :=
  err <- Close_loop (mmapFiles logBuffers) None ;;
  ret (err, set_mmapFiles [] logBuffers).

End logbuffer.
End logbuffer.

(** ** The layout of a log file mapped in one piece

    What the specification says [Wrap] builds from a single mapping, to be
    compared with what the code builds. *)

Module layout.
Import logbuffer.

(** a view of [length] bytes that starts [offset] bytes into a mapping *)
Definition view (mmap : File) (offset length : Z) : atomic.Buffer :=
  {| atomic.bufferPtr := machine.uintptr (base mmap + offset);
     atomic.capacity := length |}.

(** the term views, one after the other from the start of the mapping *)
Definition terms (mmap : File) (termLength : Z) : list atomic.Buffer :=
  map (fun i : nat => view mmap (Z.of_nat i * termLength) termLength)
      (seq 0 PartitionCount).

(** one mapping, the term views, the metadata view over the last
    [metaLength] bytes of the file, and the overlay on that last view *)
Definition carved (mmap : File) (logLength termLength metaLength : Z) : LogBuffers :=
  {| mmapFiles := [Some mmap];
     buffers := terms mmap termLength
                ++ [view mmap (logLength - metaLength) metaLength];
     meta := {| LogBufferMetaData.buffer := Some PartitionCount;
                LogBufferMetaData.offset := 0 |} |}.

End layout.

(** ** Package aeron *)

Module aeron.

(** What the code at hand calls in [Context]: the error handler, a func
    value, and the idle strategy, an interface value; both come from the
    user.  A nil func or a nil interface is [None], and calling it is a nil
    dereference.  A call of one that is set returns ([None]) or panics
    ([Some p]); the error handler is asked with the history at the time of
    the call, the idle strategy with the number of lookups made so far. *)
Record Context : Type := mkContext {
  errorHandler : option (list event -> error -> option panic_value);
  idleStrategy : option (nat -> Z -> option panic_value)
}.

(** The part of the [Aeron] struct that [Close] touches: the pointer to
    the context and the mapping of the CnC file.  The conductor acts on
    the outside world and is reached through the history. *)
Record Aeron : Type := mkAeron {
  context : option Context;
  cncFile : option File
}.

Section aeron.
Variable os : Env.

(** Modelled from the spec: [aeron.conductor.Close()] "drains the
    conductor" and reports an error or nil. *)
Definition conductor_Close : Go (option error) :=
  tr <- history ;;
  let res := env_conductor_close os tr in
  emit (ConductorCloseEv res) ;;;
  ret res.

(** [aeron.context.errorHandler(err)]: through the context pointer, then
    through the func value; the call is recorded, and the handler returns
    or panics *)
Definition call_errorHandler (aeron : Aeron) (err : error) : Go unit :=
  match context aeron with
  | None => panic NilDereference
  | Some ctx =>
      match errorHandler ctx with
      | None => panic NilDereference
      | Some handler =>
          tr <- history ;;
          emit (ErrorHandlerEv err) ;;;
          match handler tr err with
          | None => ret tt
          | Some p => panic p
          end
      end
  end.

(** [if nil != err { aeron.context.errorHandler(err) }] *)
Definition report (aeron : Aeron) (err : option error) : Go unit :=
  match err with
  | Some e => call_errorHandler aeron e
  | None => ret tt
  end.

(** what a [report] whose handler is called leaves in the history *)
Definition reported (err : option error) : list event :=
  match err with
  | Some e => [ErrorHandlerEv e]
  | None => []
  end.

(** [func (aeron *Aeron) Close() error] *)
Definition Close (aeron : Aeron) : Go (option error) :=
  err <- conductor_Close ;;
  report aeron err ;;;
  err <- memmap.Close os (cncFile aeron) ;;
  report aeron err ;;;
  ret err.

End aeron.

(** a handler and an idle strategy that return from every call *)
Definition returns_always {A B : Type} (f : A -> B -> option panic_value) : Prop :=
  forall a b, f a b = None.

End aeron.

(** ** Concrete worlds

    The constants of package logbuffer as the scenarios of the
    specification fix them, and a few operating systems to run the code
    in. *)

Module scenario.

Definition maxSingleMappingSize : Z := 2 ^ 30.
Definition logMetaDataLength : Z := 4096.
Definition TermMinLength : Z := 64 * 1024.
Definition termMaxLength : Z := 1024 * 1024 * 1024.

Definition small_log : string := "3x64KiB.logbuffer".
Definition large_log : string := "3x1GiB.logbuffer".
Definition ragged_log : string := "ragged.logbuffer".

Definition file_sizes (fileName : string) : error + Z :=
  if String.eqb fileName small_log then inr (3 * 65536 + 4096)
  else if String.eqb fileName large_log then inr (3 * 2 ^ 30 + 4096)
  else if String.eqb fileName ragged_log then inr (3 * 65536 + 4096 + 1)
  else inl "ENOENT".

(** every request is granted; the k-th region of a run lies in its own
    16 GiB window of the address space *)
Definition mmap_ok (tr : list event) (fileName : string) (offset length : Z)
    : error + File :=
  match file_sizes fileName with
  | inl e => inl e
  | inr n =>
      inr {| base := 2 ^ 34 * (1 + Z.of_nat (List.length tr));
             size := if length =? 0 then n else length |}
  end.

Definition has_unmapped (e : event) : bool :=
  match e with
  | UnmapEv _ _ => true
  | _ => false
  end.

(** a well-behaved system *)
Definition os : Env :=
  {| env_stat := file_sizes;
     env_mmap := mmap_ok;
     env_munmap := fun _ _ => None;
     env_conductor_close := fun _ => None |}.

(** the files are there but may not be mapped *)
Definition os_no_access : Env :=
  {| env_stat := file_sizes;
     env_mmap := fun _ _ _ _ => inl "EACCES";
     env_munmap := fun _ _ => None;
     env_conductor_close := fun _ => None |}.

(** the first unmapping of a run fails, the later ones succeed *)
Definition os_first_unmap_fails : Env :=
  {| env_stat := file_sizes;
     env_mmap := mmap_ok;
     env_munmap := fun tr _ => if existsb has_unmapped tr then None else Some "EINVAL";
     env_conductor_close := fun _ => None |}.

(** every unmapping fails, each with an error of its own *)
Definition os_unmap_fails : Env :=
  {| env_stat := file_sizes;
     env_mmap := mmap_ok;
     env_munmap := fun tr _ => if existsb has_unmapped tr then Some "ENOMEM" else Some "EINVAL";
     env_conductor_close := fun _ => None |}.

(** the conductor fails to close, the CnC file unmaps cleanly *)
Definition os_conductor_fails : Env :=
  {| env_stat := file_sizes;
     env_mmap := mmap_ok;
     env_munmap := fun _ _ => None;
     env_conductor_close := fun _ => Some "conductor: close failed" |}.

Definition region0 : File := {| base := 2 ^ 34; size := 4096 |}.
Definition region1 : File := {| base := 2 ^ 35; size := 65536 |}.

(** a [LogBuffers] that holds two mappings *)
Definition two_mappings : logbuffer.LogBuffers :=
  logbuffer.set_mmapFiles [Some region0; Some region1] logbuffer.new_LogBuffers.

Definition Wrap : string -> Go logbuffer.LogBuffers :=
  logbuffer.Wrap maxSingleMappingSize logMetaDataLength TermMinLength termMaxLength os.

(** the one region a run of [Wrap] on [small_log] gets from [os] *)
Definition small_region : File := {| base := 2 ^ 34; size := 200704 |}.

(** the first scenario of the specification: three terms of 64 KiB and
    4096 bytes of metadata, carved out of [small_region] *)
Definition small_buffers : logbuffer.LogBuffers :=
  layout.carved small_region 200704 65536 4096.

(** a context with the defaults in place: a handler that takes note of
    the error and an idle strategy that spins, both returning *)
Definition defaults : aeron.Context :=
  {| aeron.errorHandler := Some (fun _ _ => None);
     aeron.idleStrategy := Some (fun _ _ => None) |}.

(** a context built by hand, nothing set *)
Definition no_defaults : aeron.Context :=
  {| aeron.errorHandler := None; aeron.idleStrategy := None |}.

(** an [Aeron] whose CnC file is mapped at [region0] *)
Definition client : aeron.Aeron :=
  {| aeron.context := Some defaults; aeron.cncFile := Some region0 |}.

(** the same, on the context without defaults *)
Definition bare_client : aeron.Aeron :=
  {| aeron.context := Some no_defaults; aeron.cncFile := Some region0 |}.

End scenario.

(** ** Package aeron: waiting for a registration

    [Aeron.AddSubscription] and [Aeron.AddPublication] make a channel, ask
    the conductor for a registration and start a goroutine that looks the
    registration up until it is there.  The body of that goroutine is
    sequential code; it is embedded here on its own, with the conductor's
    answers given by the environment and the idle strategy taken from the
    context.  The loop has no bound, so the embedding takes fuel: one unit
    for each turn of the loop. *)

Module registration.

(** a buffered channel, as its sender sees it *)
Record chan (T : Type) : Type := mkChan {
  chan_cap : nat;
  chan_buf : list T;
  chan_closed : bool
}.
Arguments mkChan {T} _ _ _.
Arguments chan_cap {T} _.
Arguments chan_buf {T} _.
Arguments chan_closed {T} _.

(** what the goroutine does to the outside, in order *)
Inductive step (T : Type) : Type :=
| FindEv (regID : Z)
| IdleEv (workCount : Z)
| SendEv (x : T)
| CloseChanEv.
Arguments FindEv {T} regID.
Arguments IdleEv {T} workCount.
Arguments SendEv {T} x.
Arguments CloseChanEv {T}.

(** how a goroutine ends, when it ends *)
Inductive ending (A : Type) : Type :=
| Done (a : A)
| Panicked (p : panic_value)
| Blocked.
Arguments Done {A} a.
Arguments Panicked {A} p.
Arguments Blocked {A}.

(** the number of lookups made so far and the steps taken so far *)
Record run (T : Type) : Type := mkRun { lookups : nat; steps : list (step T) }.
Arguments mkRun {T} _ _.
Arguments lookups {T} _.
Arguments steps {T} _.

(** Modelled from the spec: the client conductor.  [Add*] "writes a
    command, records a pending entry, and returns the correlation_id";
    [Find*] "performs a single non-blocking table lookup returning either
    the resolved object, nil (still pending), or an error".  [Find*] has
    one result at its call site, so an error is a panic.  The answer to a
    lookup may depend on how many lookups came before. *)
Record Conductor (T : Type) : Type := mkConductor {
  conductor_add : string -> Z -> Z;
  conductor_find : nat -> Z -> outcome (option T)
}.
Arguments conductor_add {T} _ _ _.
Arguments conductor_find {T} _ _ _.

Section registration.
Context {T : Type}.
Variable conductor : Conductor T.
Variable context : option aeron.Context.

(** [make(chan T, n)] *)
Definition make_chan (n : nat) : chan T :=
  {| chan_cap := n; chan_buf := []; chan_closed := false |}.

(** [ch <- x]: a panic on a closed channel; otherwise the value goes into
    the buffer when there is room, and the sender blocks when there is
    none *)
Definition send (ch : chan T) (x : T) : ending (chan T) :=
  if chan_closed ch then Panicked (PanicString "send on closed channel")
  else if (List.length (chan_buf ch) <? chan_cap ch)%nat
       then Done {| chan_cap := chan_cap ch;
                    chan_buf := chan_buf ch ++ [x];
                    chan_closed := false |}
       else Blocked.

(** [close(ch)] *)
Definition close (ch : chan T) : ending (chan T) :=
  if chan_closed ch then Panicked (PanicString "close of closed channel")
  else Done {| chan_cap := chan_cap ch;
               chan_buf := chan_buf ch;
               chan_closed := true |}.

Definition record (e : step T) (s : run T) : run T :=
  {| lookups := lookups s; steps := steps s ++ [e] |}.

(** [aeron.conductor.Find*(regID)] *)
Definition Find (regID : Z) (s : run T) : outcome (option T) * run T :=
  (conductor_find conductor (lookups s) regID,
   {| lookups := S (lookups s); steps := steps s ++ [FindEv regID] |}).

(** [aeron.context.idleStrategy.Idle(workCount)]: through the context
    pointer, then through the interface value; the call is recorded, and
    the strategy returns or panics *)
Definition Idle (workCount : Z) (s : run T) : outcome unit * run T :=
  match context with
  | None => (Panic NilDereference, s)
  | Some ctx =>
      match aeron.idleStrategy ctx with
      | None => (Panic NilDereference, s)
      | Some idle =>
          (match idle (lookups s) workCount with
           | None => Return tt
           | Some p => Panic p
           end, record (IdleEv workCount) s)
      end
  end.

(** the idle strategy of the context is set and returns from every call *)
Definition idles : Prop :=
  exists ctx idle,
    context = Some ctx /\
    aeron.idleStrategy ctx = Some idle /\
    aeron.returns_always idle.

(** [for x == nil { x = Find(regID); if x == nil { Idle(0) } }], entered
    with [x == nil]; [None] when the fuel runs out *)
Fixpoint spin (fuel : nat) (regID : Z) (s : run T) : option (outcome T * run T) :=
  match fuel with
  | O => None
  | S fuel' =>
      let (r, s1) := Find regID s in
      match r with
      | Panic p => Some (Panic p, s1)
      | Return (Some x) => Some (Return x, s1)
      | Return None =>
          let (i, s2) := Idle 0 s1 in
          match i with
          | Return _ => spin fuel' regID s2
          | Panic p => Some (Panic p, s2)
          end
      end
  end.

(** the body of the goroutine: look up, spin while nil, send, close *)
Definition await (fuel : nat) (regID : Z) (ch : chan T) (s : run T)
    : option (ending (chan T) * run T) :=
  let (r, s1) := Find regID s in
  match r with
  | Panic p => Some (Panicked p, s1)
  | Return found =>
      match (match found with
             | Some x => Some (Return x, s1)
             | None => spin fuel regID s1
             end) with
      | None => None
      | Some (Panic p, s2) => Some (Panicked p, s2)
      | Some (Return x, s2) =>
          match send ch x with
          | Done ch1 => Some (close ch1, record CloseChanEv (record (SendEv x) s2))
          | Panicked p => Some (Panicked p, s2)
          | Blocked => Some (Blocked, s2)
          end
      end
  end.

(** [func (aeron *Aeron) AddSubscription(channel string, streamID int32)
    chan *Subscription]: the channel that is returned, and the goroutine
    that is started *)
Definition AddSubscription (channel : string) (streamID : Z)
    : chan T * (nat -> option (ending (chan T) * run T)) :=
  let ch := make_chan 1 in
  let regID := conductor_add conductor channel streamID in
  (ch, fun fuel => await fuel regID ch {| lookups := 0; steps := [] |}).

(** [func (aeron *Aeron) AddPublication(channel string, streamID int32)
    chan *Publication] *)
Definition AddPublication (channel : string) (streamID : Z)
    : chan T * (nat -> option (ending (chan T) * run T)) :=
  let ch := make_chan 1 in
  let regID := conductor_add conductor channel streamID in
  (ch, fun fuel => await fuel regID ch {| lookups := 0; steps := [] |}).

(** the lookups and idle calls of a goroutine whose lookup number [k]
    (counted from 0) is the first one to find the registration *)
Definition polling (regID : Z) (k : nat) : list (step T) :=
  match k with
  | O => [FindEv regID]
  | S k' =>
      FindEv regID :: concat (replicate k' [FindEv regID; IdleEv 0]) ++ [FindEv regID]
  end.

End registration.
End registration.

(** ** Counting in a history *)

Module history.

Definition same_region (f g : File) : bool :=
  (base f =? base g) && (size f =? size g).

Definition is_unmap_of (f : File) (e : event) : bool :=
  match e with
  | UnmapEv g _ => same_region f g
  | _ => false
  end.

Definition is_conductor_close (e : event) : bool :=
  match e with
  | ConductorCloseEv _ => true
  | _ => false
  end.

(** how often the unmapping of [f] was asked for *)
Definition unmaps_of (f : File) (tr : list event) : nat :=
  List.length (List.filter (is_unmap_of f) tr).

(** how often the conductor was closed *)
Definition conductor_closes (tr : list event) : nat :=
  List.length (List.filter is_conductor_close tr).

End history.

(** ** Concrete conductors *)

Module conductors.

(** a conductor that hands out registration 7 and knows it from the
    fourth lookup on (lookups 0, 1 and 2 find nothing) *)
Definition slow : registration.Conductor string :=
  {| registration.conductor_add := fun _ _ => 7;
     registration.conductor_find := fun k _ =>
       Return (if (k <? 3)%nat then None else Some "subscription 7") |}.

(** a conductor whose driver never answers *)
Definition deaf : registration.Conductor string :=
  {| registration.conductor_add := fun _ _ => 7;
     registration.conductor_find := fun _ _ => Return None |}.

(** a conductor that gives up at the third lookup *)
Definition failing : registration.Conductor string :=
  {| registration.conductor_add := fun _ _ => 7;
     registration.conductor_find := fun k _ =>
       if (k <? 2)%nat then Return None else Panic (PanicString "DriverTimeout") |}.

End conductors.

(** * Properties *)

(** ** Machine integers *)

Module machine_facts.
Import machine.

Lemma int64_range z : - 2 ^ 63 <= int64 z < 2 ^ 63.
Proof. unfold int64. pose proof (Z.mod_pos_bound (z + 2 ^ 63) (2 ^ 64)). lia. Qed.

Lemma int64_small z : - 2 ^ 63 <= z < 2 ^ 63 -> int64 z = z.
Proof. intros H. unfold int64. rewrite Z.mod_small; lia. Qed.

Lemma int32_small z : - 2 ^ 31 <= z < 2 ^ 31 -> int32 z = z.
Proof. intros H. unfold int32. rewrite Z.mod_small; lia. Qed.

Lemma uintptr_int64 z : uintptr (int64 z) = uintptr z.
Proof.
  unfold uintptr, int64.
  rewrite Zminus_mod, Z.mod_mod by lia.
  rewrite <- Zminus_mod. f_equal. lia.
Qed.

Lemma uintptr_plus a b : uintptr (uintptr a + uintptr b) = uintptr (a + b).
Proof. unfold uintptr. symmetry. apply Zplus_mod. Qed.

Lemma uintptr_offset a z : uintptr (uintptr a + uintptr (int64 z)) = uintptr (a + z).
Proof. rewrite uintptr_int64. apply uintptr_plus. Qed.

Lemma uintptr_minus_int64 a b c : uintptr (a + (b - int64 c)) = uintptr (a + (b - c)).
Proof.
  unfold uintptr.
  rewrite (Zplus_mod a (b - int64 c)), (Zminus_mod b (int64 c)).
  fold (uintptr (int64 c)). rewrite uintptr_int64. unfold uintptr.
  rewrite <- Zminus_mod, <- Zplus_mod. reflexivity.
Qed.
End machine_facts.

(** ** Running [Wrap] *)

Section logbuffer_runs.
Import machine machine_facts logbuffer.
Variables maxSingleMappingSize logMetaDataLength : Z.
Variables TermMinLength termMaxLength : Z.
Variable os : Env.

#[local] Abbreviation Wrap_single := (Wrap_single logMetaDataLength os).
#[local] Abbreviation Wrap_multi := (Wrap_multi logMetaDataLength os).
#[local] Abbreviation Wrap :=
  (Wrap maxSingleMappingSize logMetaDataLength TermMinLength termMaxLength os).
#[local] Abbreviation computeTermLength := (computeTermLength logMetaDataLength).
#[local] Abbreviation validTermLength := (validTermLength TermMinLength termMaxLength).

Lemma Wrap_single_trace fileName logLength termLength tr :
  snd (Wrap_single fileName logLength termLength new_LogBuffers tr) =
  tr ++ [MapExistingEv fileName 0 0 (env_mmap os tr fileName 0 0)].
Proof.
  unfold logbuffer.Wrap_single, memmap.MapExisting, bind, history, emit, ret.
  cbv zeta. destruct (env_mmap os tr fileName 0 0); reflexivity.
Qed.

Lemma Wrap_single_panics fileName logLength termLength tr err :
  env_mmap os tr fileName 0 0 = inl err ->
  Wrap_single fileName logLength termLength new_LogBuffers tr =
  (Panic (PanicError err), tr ++ [MapExistingEv fileName 0 0 (inl err)]).
Proof.
  intros Hmap.
  unfold logbuffer.Wrap_single, memmap.MapExisting, bind, history, emit, ret.
  cbv zeta. rewrite Hmap. reflexivity.
Qed.

Lemma Wrap_single_returns fileName logLength termLength tr mmap :
  env_mmap os tr fileName 0 0 = inr mmap ->
  int32 termLength = termLength ->
  Wrap_single fileName logLength termLength new_LogBuffers tr =
  (Return (set_meta LogBufferMetaData.zero
             (layout.carved mmap logLength termLength logMetaDataLength)),
   tr ++ [MapExistingEv fileName 0 0 (inr mmap)]).
Proof.
  intros Hmap Hcap.
  unfold logbuffer.Wrap_single, memmap.MapExisting, bind, history, emit, ret.
  cbv zeta. rewrite Hmap, Hcap.
  cbn -[int64 uintptr Z.mul Z.add Z.sub Z.of_nat].
  unfold ret, atomic.Wrap, layout.view.
  rewrite !uintptr_offset, uintptr_minus_int64.
  reflexivity.
Qed.


(** The branch of several mappings gets no further than its second
    mapping: the slice of handles starts out with [PartitionCount + 1] nil
    entries, the mappings are appended behind them, and the handle read
    back at index [i + 1] is one of the nil entries. *)
Lemma Wrap_multi_run fileName logLength termLength tr :
  Wrap_multi fileName logLength termLength new_LogBuffers tr =
  let offset := int64 (termLength * int64 (Z.of_nat PartitionCount)) in
  let length := int (int64 (logLength - offset)) in
  let res := env_mmap os tr fileName offset length in
  let tr1 := tr ++ [MapExistingEv fileName offset length res] in
  match res with
  | inl _ => (Panic (PanicString "Failed to map the log buffer"), tr1)
  | inr _ =>
      let offset0 := int64 (int64 (Z.of_nat 0) * termLength) in
      let res0 := env_mmap os tr1 fileName offset0 (int termLength) in
      (match res0 with
       | inl _ => Panic (PanicString "Failed to map the log buffer")
       | inr _ => Panic NilDereference
       end, tr1 ++ [MapExistingEv fileName offset0 (int termLength) res0])
  end.
Proof.
  unfold logbuffer.Wrap_multi, memmap.MapExisting, bind, history, emit, ret.
  cbv zeta.
  destruct (env_mmap os tr fileName _ _) as [err | mmap]; [reflexivity |].
  set (tr1 := tr ++ [_]).
  cbv beta iota delta [for_range PartitionCount bind history emit ret memmap.MapExisting].
  destruct (env_mmap os tr1 fileName (int64 (int64 (Z.of_nat 0) * termLength))
              (int termLength)) as [err0 | mmap0]; reflexivity.
Qed.

Lemma Wrap_multi_never_returns fileName logLength termLength tr :
  exists p, fst (Wrap_multi fileName logLength termLength new_LogBuffers tr) = Panic p.
Proof.
  rewrite Wrap_multi_run. cbv zeta.
  destruct (env_mmap os tr fileName _ _); [eauto |].
  destruct (env_mmap os _ fileName _ _); eauto.
Qed.

(** *** The four ways a call of [Wrap] can go *)

Lemma Wrap_stat_fails fileName tr err :
  env_stat os fileName = inl err ->
  Wrap fileName tr = (Panic (PanicError err), tr).
Proof.
  intros Hstat. unfold logbuffer.Wrap, memmap.GetFileSize, bind.
  rewrite Hstat. reflexivity.
Qed.

Lemma Wrap_invalid fileName tr n :
  env_stat os fileName = inr n ->
  validTermLength (computeTermLength (int64 n)) = false ->
  Wrap fileName tr = (Panic (PanicString "InvalidTermLength"), tr).
Proof.
  intros Hstat Hbad. unfold logbuffer.Wrap, memmap.GetFileSize, checkTermLength, bind.
  rewrite Hstat. cbn [ret]. rewrite Hbad. reflexivity.
Qed.

Lemma Wrap_valid fileName tr n :
  env_stat os fileName = inr n ->
  validTermLength (computeTermLength (int64 n)) = true ->
  Wrap fileName tr =
  bind (if int64 n <? maxSingleMappingSize
        then Wrap_single fileName (int64 n) (computeTermLength (int64 n)) new_LogBuffers
        else Wrap_multi fileName (int64 n) (computeTermLength (int64 n)) new_LogBuffers)
       (fun buffers =>
          ret (set_meta (LogBufferMetaData.Wrap (meta buffers) PartitionCount 0) buffers))
       tr.
Proof.
  intros Hstat Hok. unfold logbuffer.Wrap, memmap.GetFileSize, checkTermLength.
  rewrite Hstat. unfold bind at 1. cbn [ret]. unfold bind at 1. rewrite Hok. reflexivity.
Qed.

End logbuffer_runs.

Section termLength_facts.
Import machine machine_facts logbuffer.

Lemma isPowerOfTwo_spec n : isPowerOfTwo n = true <-> exists k, 0 <= k /\ n = 2 ^ k.
Proof.
  unfold isPowerOfTwo. rewrite andb_true_iff, Z.ltb_lt, Z.eqb_eq. split.
  - intros [Hpos Heq]. exists (Z.log2 n). split; [apply Z.log2_nonneg | exact Heq].
  - intros (k & Hk & ->). split.
    + apply Z.pow_pos_nonneg; lia.
    + rewrite Z.log2_pow2 by exact Hk. reflexivity.
Qed.

Lemma validTermLength_spec lo hi t :
  validTermLength lo hi t = true <->
  (exists k, 0 <= k /\ t = 2 ^ k) /\ lo <= t <= hi.
Proof.
  unfold validTermLength.
  rewrite !andb_true_iff, isPowerOfTwo_spec, Z.leb_le, Z.leb_le. tauto.
Qed.

Lemma validTermLength_pos lo hi t : validTermLength lo hi t = true -> 0 < t.
Proof.
  unfold validTermLength, isPowerOfTwo. rewrite !andb_true_iff, Z.ltb_lt. tauto.
Qed.

Lemma quot3_pos a : 0 < Z.quot a 3 -> Z.quot a 3 = a / 3 /\ 3 <= a.
Proof.
  intros Hq. destruct (Z.lt_ge_cases a 0) as [Hneg | Hnn].
  - pose proof (Z.quot_rem' a 3) as E.
    pose proof (Z.rem_bound_pos_neg a 3 ltac:(lia) ltac:(lia)). lia.
  - rewrite Z.quot_div_nonneg in * by lia. split; [reflexivity |].
    destruct (Z.lt_ge_cases a 3) as [Hsmall | ?]; [| assumption].
    rewrite Z.div_small in Hq by lia. lia.
Qed.

(** A term length that passes the validation was computed without any
    wrap-around, and the file is at most [PartitionCount - 1] bytes longer
    than the three terms and the metadata. *)
Lemma computeTermLength_exact meta lo hi n :
  0 <= meta < 2 ^ 31 -> hi < 2 ^ 31 ->
  validTermLength lo hi (computeTermLength meta (int64 n)) = true ->
  computeTermLength meta (int64 n) = (int64 n - meta) / Z.of_nat PartitionCount /\
  Z.of_nat PartitionCount * computeTermLength meta (int64 n) + meta <= int64 n
    < Z.of_nat PartitionCount * computeTermLength meta (int64 n) + meta + Z.of_nat PartitionCount.
Proof.
  intros Hmeta Hhi Hvalid.
  pose proof (validTermLength_pos _ _ _ Hvalid) as Hpos.
  apply validTermLength_spec in Hvalid. destruct Hvalid as [_ [_ Hle]].
  revert Hpos Hle. unfold computeTermLength.
  change (int64 (Z.of_nat PartitionCount)) with 3.
  change (Z.of_nat PartitionCount) with 3.
  rewrite (int64_small meta) by lia.
  pose proof (int64_range n) as Hn. set (l := int64 n) in *. clearbody l.
  destruct (Z.lt_ge_cases (l - meta) (- 2 ^ 63)) as [Hwrap | Hfit].
  - assert (E : int64 (l - meta) = l - meta + 2 ^ 64).
    { unfold int64.
      replace (l - meta + 2 ^ 63) with (l - meta + 2 ^ 63 + 2 ^ 64 + (-1) * 2 ^ 64) by lia.
      rewrite Z.mod_add by lia. rewrite Z.mod_small; lia. }
    rewrite E. intros Hpos Hle.
    destruct (quot3_pos _ Hpos) as [Hq _]. rewrite Hq in Hle.
    pose proof (Z.div_le_mono (3 * 2 ^ 31) (l - meta + 2 ^ 64) 3 ltac:(lia) ltac:(lia)) as D.
    rewrite Z.mul_comm, Z.div_mul in D by lia. lia.
  - rewrite int64_small by lia. intros Hpos Hle.
    destruct (quot3_pos _ Hpos) as [Hq Hge]. rewrite Hq. split; [reflexivity |].
    pose proof (Z.div_mod (l - meta) 3 ltac:(lia)).
    pose proof (Z.mod_pos_bound (l - meta) 3 ltac:(lia)). lia.
Qed.

End termLength_facts.

(** ** What a call of [Wrap] that returns has done *)

Section Wrap_outcomes.
Import machine machine_facts logbuffer.
Variables maxSingleMappingSize logMetaDataLength : Z.
Variables TermMinLength termMaxLength : Z.
Variable os : Env.

#[local] Abbreviation Wrap_single := (Wrap_single logMetaDataLength os).
#[local] Abbreviation Wrap_multi := (Wrap_multi logMetaDataLength os).
#[local] Abbreviation Wrap :=
  (Wrap maxSingleMappingSize logMetaDataLength TermMinLength termMaxLength os).
#[local] Abbreviation computeTermLength := (computeTermLength logMetaDataLength).
#[local] Abbreviation validTermLength := (validTermLength TermMinLength termMaxLength).

(** the overlay put over the metadata buffer by the last statement *)
Lemma Wrap_single_then_meta fileName tr n lb0 tr' :
  env_stat os fileName = inr n ->
  validTermLength (computeTermLength (int64 n)) = true ->
  int64 n < maxSingleMappingSize ->
  Wrap_single fileName (int64 n) (computeTermLength (int64 n)) new_LogBuffers tr
    = (Return lb0, tr') ->
  Wrap fileName tr =
  (Return (set_meta (LogBufferMetaData.Wrap (meta lb0) PartitionCount 0) lb0), tr').
Proof.
  intros Hstat Hvalid Hlt Hrun.
  rewrite (Wrap_valid _ _ _ _ _ _ _ _ Hstat Hvalid).
  apply Z.ltb_lt in Hlt. rewrite Hlt. unfold bind. rewrite Hrun. reflexivity.
Qed.

Lemma Wrap_returns_inv fileName tr lb tr' :
  Wrap fileName tr = (Return lb, tr') ->
  exists n mmap lb0,
    env_stat os fileName = inr n /\
    validTermLength (computeTermLength (int64 n)) = true /\
    int64 n < maxSingleMappingSize /\
    env_mmap os tr fileName 0 0 = inr mmap /\
    Wrap_single fileName (int64 n) (computeTermLength (int64 n)) new_LogBuffers tr
      = (Return lb0, tr') /\
    tr' = tr ++ [MapExistingEv fileName 0 0 (inr mmap)] /\
    lb = set_meta (LogBufferMetaData.Wrap (meta lb0) PartitionCount 0) lb0.
Proof.
  intros Hrun.
  destruct (env_stat os fileName) as [err | n] eqn:Hstat.
  { rewrite (Wrap_stat_fails _ _ _ _ _ _ _ _ Hstat) in Hrun. discriminate. }
  destruct (validTermLength (computeTermLength (int64 n))) eqn:Hvalid.
  2:{ rewrite (Wrap_invalid _ _ _ _ _ _ _ _ Hstat Hvalid) in Hrun. discriminate. }
  rewrite (Wrap_valid _ _ _ _ _ _ _ _ Hstat Hvalid) in Hrun.
  destruct (int64 n <? maxSingleMappingSize) eqn:Hlt.
  - apply Z.ltb_lt in Hlt. unfold bind in Hrun.
    pose proof (Wrap_single_trace logMetaDataLength os fileName (int64 n)
                  (computeTermLength (int64 n)) tr) as Htr.
    destruct (env_mmap os tr fileName 0 0) as [err | mmap] eqn:Hmap.
    { rewrite (Wrap_single_panics _ _ _ _ _ _ _ Hmap) in Hrun. discriminate. }
    destruct (Wrap_single fileName (int64 n) (computeTermLength (int64 n))
                new_LogBuffers tr) as [[lb0 | p] tr0] eqn:Hsingle; [| discriminate].
    cbn [snd] in Htr. subst tr0. unfold ret in Hrun.
    injection Hrun as Hlb Htr'. subst tr'.
    exists n, mmap, lb0. auto 10.
  - unfold bind in Hrun.
    destruct (Wrap_multi_never_returns logMetaDataLength os fileName (int64 n)
                (computeTermLength (int64 n)) tr) as [p Hp].
    destruct (Wrap_multi fileName (int64 n) (computeTermLength (int64 n))
                new_LogBuffers tr) as [[lb0 | q] tr0]; cbn [fst] in Hp; discriminate.
Qed.

(** whatever the term length, the branch of one mapping fills the four
    slots of the array and keeps the one handle *)
Lemma Wrap_single_shape fileName logLength termLength tr lb0 tr' :
  Wrap_single fileName logLength termLength new_LogBuffers tr = (Return lb0, tr') ->
  exists mmap b0 b1 b2 b3,
    lb0 = {| mmapFiles := [Some mmap]; buffers := [b0; b1; b2; b3];
             meta := LogBufferMetaData.zero |} /\
    atomic.capacity b0 = int32 termLength /\
    atomic.capacity b1 = int32 termLength /\
    atomic.capacity b2 = int32 termLength /\
    atomic.capacity b3 = logMetaDataLength.
Proof.
  unfold logbuffer.Wrap_single, memmap.MapExisting, bind, history, emit, ret.
  cbv zeta. destruct (env_mmap os tr fileName 0 0) as [err | mmap]; [discriminate |].
  cbn -[int64 int32 uintptr Z.mul Z.add Z.sub Z.of_nat]. unfold ret.
  intros [= <- _]. exists mmap. do 4 eexists. split; [reflexivity |].
  cbn [atomic.capacity atomic.Wrap]. auto.
Qed.

End Wrap_outcomes.

(** ** Properties of [Wrap] *)

Section Wrap_properties.
Import machine machine_facts logbuffer.
Variables maxSingleMappingSize logMetaDataLength : Z.
Variables TermMinLength termMaxLength : Z.
Variable os : Env.

#[local] Abbreviation Wrap :=
  (Wrap maxSingleMappingSize logMetaDataLength TermMinLength termMaxLength os).
#[local] Abbreviation computeTermLength := (computeTermLength logMetaDataLength).
#[local] Abbreviation validTermLength := (validTermLength TermMinLength termMaxLength).

Lemma valid_fits_int32 t :
  termMaxLength < 2 ^ 31 -> validTermLength t = true -> int32 t = t.
Proof.
  intros Hmax Hvalid. pose proof (validTermLength_pos _ _ _ Hvalid).
  apply validTermLength_spec in Hvalid. apply int32_small. lia.
Qed.

(** a valid file below the single-mapping limit whose mapping succeeds *)
Lemma Wrap_carves fileName tr n mmap :
  env_stat os fileName = inr n ->
  int64 n < maxSingleMappingSize ->
  validTermLength (computeTermLength (int64 n)) = true ->
  termMaxLength < 2 ^ 31 ->
  env_mmap os tr fileName 0 0 = inr mmap ->
  Wrap fileName tr =
  (Return (layout.carved mmap (int64 n) (computeTermLength (int64 n)) logMetaDataLength),
   tr ++ [MapExistingEv fileName 0 0 (inr mmap)]).
Proof.
  intros Hstat Hlt Hvalid Hmax Hmap.
  pose proof (Wrap_single_returns logMetaDataLength os fileName (int64 n)
                (computeTermLength (int64 n)) tr mmap Hmap
                (valid_fits_int32 _ Hmax Hvalid)) as Hrun.
  rewrite (Wrap_single_then_meta _ _ _ _ _ _ _ _ _ _ Hstat Hvalid Hlt Hrun).
  reflexivity.
Qed.

Lemma Buffer_lookup lb (i : nat) b tr :
  buffers lb !! i = Some b -> Buffer lb (Z.of_nat i) tr = (Return b, tr).
Proof.
  intros Hb. unfold Buffer, index.
  destruct (Z.ltb_spec (Z.of_nat i) 0) as [Hneg | _]; [lia |].
  rewrite Nat2Z.id, Hb. reflexivity.
Qed.

(** C3: a log file shorter than [maxSingleMappingSize] (with a valid term
    length, and which the system agrees to map) is mapped exactly once, as
    a whole: the one call is [MapExisting(fileName, 0, 0)].  [Buffer(i)],
    for each of the [PartitionCount] terms, is a view of capacity
    [termLength] at offset [i * termLength] of that mapping, and
    [Buffer(PartitionCount)] is a view of capacity [logMetaDataLength] at
    offset [logLength - logMetaDataLength]. *)
Theorem Wrap_single_mapping fileName tr n mmap :
  env_stat os fileName = inr n ->
  int64 n < maxSingleMappingSize ->
  validTermLength (computeTermLength (int64 n)) = true ->
  termMaxLength < 2 ^ 31 ->
  env_mmap os tr fileName 0 0 = inr mmap ->
  exists lb,
    Wrap fileName tr = (Return lb, tr ++ [MapExistingEv fileName 0 0 (inr mmap)]) /\
    mmapFiles lb = [Some mmap] /\
    (forall (i : nat) tr2, (i < PartitionCount)%nat ->
       Buffer lb (Z.of_nat i) tr2 =
       (Return (layout.view mmap (Z.of_nat i * computeTermLength (int64 n))
                  (computeTermLength (int64 n))), tr2)) /\
    (forall tr2,
       Buffer lb (Z.of_nat PartitionCount) tr2 =
       (Return (layout.view mmap (int64 n - logMetaDataLength) logMetaDataLength), tr2)).
Proof.
  intros Hstat Hlt Hvalid Hmax Hmap. eexists. split.
  { apply Wrap_carves; eassumption. }
  split; [reflexivity |]. split.
  - intros i tr2 Hi. apply Buffer_lookup.
    do 3 (destruct i as [| i]; [reflexivity |]). unfold PartitionCount in Hi. lia.
  - intros tr2. apply Buffer_lookup. reflexivity.
Qed.

(** C4, as the code has it: for every log file that [Wrap] accepts, the
    term length of the term views is [(logLength - logMetaDataLength) /
    PartitionCount], the division truncating; it is a power of two within
    the bounds; and [logLength] lies between [PartitionCount * termLength
    + logMetaDataLength] and that plus [PartitionCount - 1].  Every file
    whose computed term length is not a power of two within the bounds is
    rejected: [Wrap] panics before it maps anything. *)
Theorem Wrap_checks_term_length fileName tr :
  0 <= logMetaDataLength < 2 ^ 31 ->
  termMaxLength < 2 ^ 31 ->
  (forall lb tr',
     Wrap fileName tr = (Return lb, tr') ->
     exists n,
       env_stat os fileName = inr n /\
       let logLength := int64 n in
       let termLength := (logLength - logMetaDataLength) / Z.of_nat PartitionCount in
       (forall i : nat, (i < PartitionCount)%nat ->
          exists b, buffers lb !! i = Some b /\ atomic.capacity b = termLength) /\
       (exists k, 0 <= k /\ termLength = 2 ^ k) /\
       TermMinLength <= termLength <= termMaxLength /\
       Z.of_nat PartitionCount * termLength + logMetaDataLength <= logLength
         < Z.of_nat PartitionCount * termLength + logMetaDataLength
           + Z.of_nat PartitionCount) /\
  (forall n,
     env_stat os fileName = inr n ->
     ~ ((exists k, 0 <= k /\ computeTermLength (int64 n) = 2 ^ k) /\
        TermMinLength <= computeTermLength (int64 n) <= termMaxLength) ->
     Wrap fileName tr = (Panic (PanicString "InvalidTermLength"), tr)).
Proof.
  intros Hmeta Hmax. split.
  - intros lb tr' Hrun.
    destruct (Wrap_returns_inv _ _ _ _ _ _ _ _ _ Hrun)
      as (n & mmap & lb0 & Hstat & Hvalid & Hlt & Hmap & _ & _ & _).
    rewrite (Wrap_carves _ _ _ _ Hstat Hlt Hvalid Hmax Hmap) in Hrun.
    injection Hrun as <- _.
    destruct (computeTermLength_exact _ _ _ _ Hmeta Hmax Hvalid) as [Hexact Hlen].
    apply validTermLength_spec in Hvalid. destruct Hvalid as [Hpow Hbounds].
    exists n. split; [assumption |]. cbv zeta. rewrite <- Hexact.
    split; [| auto].
    intros i Hi.
    do 3 (destruct i as [| i]; [eexists; split; reflexivity |]).
    unfold PartitionCount in Hi. lia.
  - intros n Hstat Hbad. apply Wrap_invalid with (n := n); [assumption |].
    destruct (validTermLength (computeTermLength (int64 n))) eqn:Hvalid; [| reflexivity].
    apply validTermLength_spec in Hvalid. contradiction.
Qed.

(** C7: when a mapping that [Wrap] asks for fails, [Wrap] panics: with the
    error of [MapExisting] in the branch of one mapping, with "Failed to
    map the log buffer" in the branch of several mappings.  No
    [LogBuffers] is returned. *)
Theorem Wrap_mapping_failure_is_fatal fileName tr evs name offset length err :
  snd (Wrap fileName tr) = tr ++ evs ->
  In (MapExistingEv name offset length (inl err)) evs ->
  exists n,
    env_stat os fileName = inr n /\
    fst (Wrap fileName tr) =
    Panic (if int64 n <? maxSingleMappingSize
           then PanicError err
           else PanicString "Failed to map the log buffer").
Proof.
  intros Htrace Hin.
  destruct (env_stat os fileName) as [e | n] eqn:Hstat.
  { rewrite (Wrap_stat_fails _ _ _ _ _ _ _ _ Hstat) in Htrace. cbn [snd] in Htrace.
    rewrite <- (app_nil_r tr) in Htrace at 1. apply app_inv_head in Htrace.
    subst evs. destruct Hin. }
  destruct (validTermLength (computeTermLength (int64 n))) eqn:Hvalid.
  2:{ rewrite (Wrap_invalid _ _ _ _ _ _ _ _ Hstat Hvalid) in Htrace. cbn [snd] in Htrace.
      rewrite <- (app_nil_r tr) in Htrace at 1. apply app_inv_head in Htrace.
      subst evs. destruct Hin. }
  exists n. split; [reflexivity |].
  rewrite (Wrap_valid _ _ _ _ _ _ _ _ Hstat Hvalid) in Htrace |- *.
  destruct (int64 n <? maxSingleMappingSize).
  - unfold bind in Htrace |- *.
    pose proof (Wrap_single_trace logMetaDataLength os fileName (int64 n)
                  (computeTermLength (int64 n)) tr) as Hsingle.
    destruct (env_mmap os tr fileName 0 0) as [e | mmap] eqn:Hmap.
    + rewrite (Wrap_single_panics _ _ _ _ _ _ _ Hmap) in Htrace |- *.
      cbn [fst snd] in Htrace |- *. apply app_inv_head in Htrace. subst evs.
      destruct Hin as [[= _ _ _ ->] | []]. reflexivity.
    + assert (Hevs : evs = [MapExistingEv fileName 0 0 (inr mmap)]).
      { destruct (logbuffer.Wrap_single _ _ _ _ _ _ tr) as [[lb0 | p] tr0];
          cbn [snd] in Hsingle; unfold ret in Htrace; cbn [snd] in Htrace;
          rewrite Hsingle in Htrace; apply app_inv_head in Htrace; congruence. }
      subst evs. destruct Hin as [[=] | []].
  - unfold bind in Htrace |- *. rewrite Wrap_multi_run in Htrace |- *.
    cbv zeta in Htrace |- *.
    destruct (env_mmap os tr fileName _ _) as [e | mmap].
    + reflexivity.
    + destruct (env_mmap os _ fileName _ _) as [e0 | mmap0].
      * reflexivity.
      * cbn [snd] in Htrace. rewrite <- app_assoc in Htrace.
        apply app_inv_head in Htrace. subst evs.
        destruct Hin as [[=] | [[=] | []]].
Qed.

(** C9: in a [LogBuffers] that [Wrap] returned, the overlay that [Meta()]
    gives is wrapped at offset 0 over the buffer with index
    [PartitionCount], the one that [Buffer(PartitionCount)] gives: a read
    through the overlay and a read through that buffer see the same
    byte. *)
Theorem Meta_overlays_metadata_buffer fileName tr lb tr' :
  Wrap fileName tr = (Return lb, tr') ->
  LogBufferMetaData.buffer (Meta lb) = Some PartitionCount /\
  LogBufferMetaData.offset (Meta lb) = 0 /\
  exists b,
    (forall tr2, Buffer lb (Z.of_nat PartitionCount) tr2 = (Return b, tr2)) /\
    (forall memory field,
       LogBufferMetaData.GetUInt8 memory (buffers lb) (Meta lb) field =
       atomic.GetUInt8 memory b field).
Proof.
  intros Hrun.
  destruct (Wrap_returns_inv _ _ _ _ _ _ _ _ _ Hrun)
    as (n & mmap & lb0 & _ & _ & _ & _ & Hsingle & _ & ->).
  destruct (Wrap_single_shape _ _ _ _ _ _ _ _ Hsingle)
    as (mmap' & b0 & b1 & b2 & b3 & -> & _).
  split; [reflexivity |]. split; [reflexivity |].
  exists b3. split.
  - intros tr2. apply Buffer_lookup. reflexivity.
  - intros memory field. reflexivity.
Qed.

(** C10: a [LogBuffers] that [Wrap] returned is fully initialised.  It
    holds its mapping, each of the [PartitionCount] term buffers was
    wrapped with capacity [termLength] (which is positive), the metadata
    buffer was wrapped with capacity [logMetaDataLength], and the overlay
    was wrapped over the metadata buffer.  [Wrap] has no other way to
    return: whenever it does not panic, this is the value it returns. *)
Theorem Wrap_returns_initialised fileName tr lb tr' :
  termMaxLength < 2 ^ 31 ->
  Wrap fileName tr = (Return lb, tr') ->
  exists n mmap,
    env_stat os fileName = inr n /\
    0 < computeTermLength (int64 n) /\
    mmapFiles lb = [Some mmap] /\
    List.length (buffers lb) = (PartitionCount + 1)%nat /\
    (forall i : nat, (i < PartitionCount)%nat ->
       exists ptr,
         buffers lb !! i =
         Some (atomic.Wrap atomic.zero ptr (computeTermLength (int64 n)))) /\
    (exists ptr,
       buffers lb !! PartitionCount =
       Some (atomic.Wrap atomic.zero ptr logMetaDataLength)) /\
    Meta lb = LogBufferMetaData.Wrap LogBufferMetaData.zero PartitionCount 0.
Proof.
  intros Hmax Hrun.
  destruct (Wrap_returns_inv _ _ _ _ _ _ _ _ _ Hrun)
    as (n & mmap & lb0 & Hstat & Hvalid & Hlt & Hmap & _ & _ & _).
  rewrite (Wrap_carves _ _ _ _ Hstat Hlt Hvalid Hmax Hmap) in Hrun.
  injection Hrun as <- _.
  exists n, mmap. split; [assumption |].
  split; [eapply validTermLength_pos; eassumption |].
  split; [reflexivity |]. split; [reflexivity |]. split.
  - intros i Hi.
    do 3 (destruct i as [| i]; [eexists; reflexivity |]).
    unfold PartitionCount in Hi. lia.
  - split; [eexists |]; reflexivity.
Qed.

End Wrap_properties.

(** ** Properties of [LogBuffers.Close] *)

Section Close_properties.
Import logbuffer.
Variable os : Env.

Lemma last_cons {A : Type} (x : A) (l : list A) (d : A) :
  List.last (x :: l) d = List.last l x.
Proof.
  revert x d. induction l as [| y l IH]; intros x d; [reflexivity |].
  change (List.last (x :: y :: l) d) with (List.last (y :: l) d).
  rewrite (IH y d), (IH y x). reflexivity.
Qed.

(** The loop asks the system to unmap every region, in order, whatever
    the earlier answers were, and ends with the answer to the last
    request in [err]. *)
Lemma Close_loop_run (files : list File) err tr :
  exists results,
    List.length results = List.length files /\
    Close_loop os (map Some files) err tr =
    (Return (List.last results err), tr ++ zip_with UnmapEv files results).
Proof.
  revert err tr. induction files as [| f files IH]; intros err tr.
  - exists []. split; [reflexivity |]. cbn. rewrite app_nil_r. reflexivity.
  - destruct (IH (env_munmap os tr f) (tr ++ [UnmapEv f (env_munmap os tr f)]))
      as (results & Hlen & Hrun).
    exists (env_munmap os tr f :: results). split; [cbn; congruence |].
    rewrite last_cons. cbn [map Close_loop zip_with].
    unfold bind at 1. cbn [memmap.Close]. unfold bind, history, emit, ret. cbn beta iota.
    unfold bind, ret in Hrun. rewrite Hrun, <- app_assoc. reflexivity.
Qed.

Lemma Close_loop_returns files err tr :
  Forall is_Some files -> exists r tr', Close_loop os files err tr = (Return r, tr').
Proof.
  intros Hall. revert err tr.
  induction Hall as [| mmap files [f ->] _ IH]; intros err tr.
  - exists err, tr. reflexivity.
  - destruct (IH (env_munmap os tr f) (tr ++ [UnmapEv f (env_munmap os tr f)]))
      as (r & tr' & Hrun).
    exists r, tr'. cbn [Close_loop memmap.Close].
    unfold bind, history, emit, ret. cbn beta iota. exact Hrun.
Qed.

Lemma Close_loop_returns_inv files err tr r tr' :
  Close_loop os files err tr = (Return r, tr') -> exists fs, files = map Some fs.
Proof.
  revert err tr. induction files as [| [f |] files IH]; intros err tr Hrun.
  - exists []. reflexivity.
  - cbn [Close_loop memmap.Close] in Hrun.
    unfold bind, history, emit, ret in Hrun. cbn beta iota in Hrun.
    destruct (IH _ _ Hrun) as [fs ->]. exists (f :: fs). reflexivity.
  - cbn in Hrun. discriminate.
Qed.

(** C6: when [Close] has returned, it has asked for the unmapping of
    every region the [LogBuffers] held, once each and in order, and the
    [LogBuffers] holds no mapping any more; a second [Close] unmaps
    nothing (the history stays as it is) and returns nil.  The first
    [Close] does return when none of the handles is nil. *)
Theorem Close_twice lb tr :
  (forall err lb' tr',
     Close os lb tr = (Return (err, lb'), tr') ->
     (exists files results,
        mmapFiles lb = map Some files /\
        List.length results = List.length files /\
        tr' = tr ++ zip_with UnmapEv files results) /\
     mmapFiles lb' = [] /\
     forall tr2, Close os lb' tr2 = (Return (None, lb'), tr2)) /\
  (Forall is_Some (mmapFiles lb) ->
   exists err lb' tr', Close os lb tr = (Return (err, lb'), tr')).
Proof.
  split.
  - intros err lb' tr'. unfold Close, bind.
    destruct (Close_loop os (mmapFiles lb) None tr) as [[r | p] tr0] eqn:Hloop;
      [| discriminate].
    unfold ret. intros [= _ <- <-]. split; [| split; reflexivity].
    destruct (Close_loop_returns_inv _ _ _ _ _ Hloop) as [files Hfiles].
    destruct (Close_loop_run files None tr) as (results & Hlen & Hrun).
    rewrite Hfiles, Hrun in Hloop. injection Hloop as _ <-.
    exists files, results. auto.
  - intros Hall. destruct (Close_loop_returns _ None tr Hall) as (r & tr' & Hrun).
    exists r, (set_mmapFiles [] lb), tr'. unfold Close, bind. rewrite Hrun. reflexivity.
Qed.

End Close_properties.

(** ** Properties of [Aeron.Close] *)

Section Aeron_Close.
Variable os : Env.
Variables (ctx : aeron.Context) (cnc : File).

#[local] Abbreviation a := (aeron.mkAeron (Some ctx) (Some cnc)).

(** [Close] with an error handler that is set and returns *)
Lemma aeron_Close_run handler tr :
  aeron.errorHandler ctx = Some handler ->
  aeron.returns_always handler ->
  exists rc ru,
    rc = env_conductor_close os tr /\
    ru = env_munmap os (tr ++ [ConductorCloseEv rc] ++ aeron.reported rc) cnc /\
    aeron.Close os a tr =
    (Return ru,
     (tr ++ [ConductorCloseEv rc] ++ aeron.reported rc)
        ++ [UnmapEv cnc ru] ++ aeron.reported ru).
Proof.
  intros Hset Hreturns.
  unfold aeron.Close, aeron.conductor_Close, aeron.report, aeron.call_errorHandler,
    memmap.Close, bind, history, emit, ret.
  cbn [aeron.cncFile aeron.context]. rewrite Hset.
  exists (env_conductor_close os tr).
  destruct (env_conductor_close os tr) as [e |]; rewrite ?Hreturns;
    cbn [aeron.reported app]; rewrite <- ?app_assoc; cbn [app];
    match goal with
    | |- context [env_munmap os ?t cnc] =>
        exists (env_munmap os t cnc); destruct (env_munmap os t cnc) as [e' |]
    end;
    rewrite ?Hreturns; cbn [aeron.reported app]; rewrite <- ?app_assoc;
    repeat split; reflexivity.
Qed.

(** C5, as the code has it.  With an error handler that is set and
    returns, [Aeron.Close] closes the conductor and then unmaps the CnC
    file, also when the conductor's close has failed; each error is passed
    to the handler, in order; the error returned is the one of the
    unmapping of the CnC file (nil when that succeeds), that is, the
    result of the last release step.  When the conductor's close fails and
    the handler is nil or panics, [Close] panics and the unmapping of the
    CnC file is not asked for. *)
Theorem aeron_Close_releases_both tr :
  (forall handler,
     aeron.errorHandler ctx = Some handler ->
     aeron.returns_always handler ->
     let rc := env_conductor_close os tr in
     let tr1 := tr ++ [ConductorCloseEv rc] ++ aeron.reported rc in
     let ru := env_munmap os tr1 cnc in
     aeron.Close os a tr =
     (Return ru, tr1 ++ [UnmapEv cnc ru] ++ aeron.reported ru)) /\
  (forall e,
     env_conductor_close os tr = Some e ->
     aeron.errorHandler ctx = None ->
     aeron.Close os a tr =
     (Panic NilDereference, tr ++ [ConductorCloseEv (Some e)])) /\
  (forall e handler p,
     env_conductor_close os tr = Some e ->
     aeron.errorHandler ctx = Some handler ->
     handler (tr ++ [ConductorCloseEv (Some e)]) e = Some p ->
     aeron.Close os a tr =
     (Panic p, tr ++ [ConductorCloseEv (Some e); ErrorHandlerEv e])).
Proof.
  split; [| split].
  - intros handler Hset Hreturns. cbv zeta.
    destruct (aeron_Close_run handler tr Hset Hreturns) as (rc & ru & -> & -> & Hrun).
    exact Hrun.
  - intros e Hfails Hnil.
    unfold aeron.Close, aeron.conductor_Close, aeron.report, aeron.call_errorHandler,
      bind, history, emit, ret.
    cbn [aeron.context]. rewrite Hfails, Hnil. reflexivity.
  - intros e handler p Hfails Hset Hpanics.
    unfold aeron.Close, aeron.conductor_Close, aeron.report, aeron.call_errorHandler,
      bind, history, emit, ret.
    cbn [aeron.context]. rewrite Hfails, Hset, Hpanics.
    rewrite <- app_assoc. reflexivity.
Qed.

End Aeron_Close.

(** ** The code on concrete inputs *)

Section runs.
Import logbuffer scenario.

(** C1: the log file of 3 GiB + 4096 bytes, not shorter than
    [maxSingleMappingSize], on a system that grants every mapping.  [Wrap]
    maps the metadata, maps the first term, and then dereferences the nil
    handle at index 1 of [mmapFiles]: two mappings instead of four, and no
    [LogBuffers]. *)
Theorem Wrap_multi_mapping_nil_dereference :
  env_stat os large_log = inr (3 * 2 ^ 30 + 4096) /\
  maxSingleMappingSize <= 3 * 2 ^ 30 + 4096 /\
  Wrap large_log [] =
  (Panic NilDereference,
   [MapExistingEv large_log (3 * 2 ^ 30) 4096
      (inr {| base := 2 ^ 34; size := 4096 |});
    MapExistingEv large_log 0 (2 ^ 30)
      (inr {| base := 2 ^ 35; size := 2 ^ 30 |})]).
Proof.
  split; [reflexivity |]. split; [vm_compute; discriminate |].
  vm_compute. reflexivity.
Qed.

(** C2: a [LogBuffers] with two mappings.  [Close] asks for both regions
    to be unmapped.  When only the first request fails, [Close] returns
    nil; when both fail, it returns the second error.  In neither case
    does the first error come back. *)
Theorem Close_loses_first_error :
  Close os_first_unmap_fails two_mappings [] =
  (Return (None, set_mmapFiles [] two_mappings),
   [UnmapEv region0 (Some "EINVAL"); UnmapEv region1 None]) /\
  Close os_unmap_fails two_mappings [] =
  (Return (Some "ENOMEM", set_mmapFiles [] two_mappings),
   [UnmapEv region0 (Some "EINVAL"); UnmapEv region1 (Some "ENOMEM")]).
Proof. split; reflexivity. Qed.

(** C4 as stated fails: a file one byte longer than three terms of 64 KiB
    and the metadata is accepted, although its length is not
    [PartitionCount * termLength + logMetaDataLength]. *)
Lemma Wrap_accepts_ragged_length :
  exists lb tr',
    Wrap ragged_log [] = (Return lb, tr') /\
    env_stat os ragged_log = inr 200705 /\
    200705 <> Z.of_nat PartitionCount
              * computeTermLength logMetaDataLength (machine.int64 200705)
              + logMetaDataLength.
Proof.
  do 2 eexists. split; [vm_compute; reflexivity |].
  split; [reflexivity | vm_compute; discriminate].
Qed.

(** C5 as stated fails.  The conductor's close fails, which is the first
    error of the shutdown; the CnC file unmaps cleanly; [Aeron.Close]
    returns nil.  And on a context without an error handler the failure of
    the conductor's close ends [Close] in a panic, the CnC file still
    mapped. *)
Lemma aeron_Close_drops_conductor_error :
  env_conductor_close os_conductor_fails [] = Some "conductor: close failed" /\
  aeron.Close os_conductor_fails client [] =
  (Return None,
   [ConductorCloseEv (Some "conductor: close failed");
    ErrorHandlerEv "conductor: close failed";
    UnmapEv region0 None]) /\
  aeron.Close os_conductor_fails bare_client [] =
  (Panic NilDereference, [ConductorCloseEv (Some "conductor: close failed")]).
Proof. repeat split; reflexivity. Qed.

(** the first scenario of the specification, run *)
Example Wrap_small_log :
  Wrap small_log [] =
  (Return small_buffers, [MapExistingEv small_log 0 0 (inr small_region)]).
Proof. vm_compute. reflexivity. Qed.

Example small_buffers_capacities :
  map atomic.capacity (buffers small_buffers) = [65536; 65536; 65536; 4096].
Proof. reflexivity. Qed.

(** a mapping failure in the branch of several mappings *)
Example Wrap_large_log_no_access :
  logbuffer.Wrap maxSingleMappingSize logMetaDataLength TermMinLength termMaxLength
    os_no_access large_log [] =
  (Panic (PanicString "Failed to map the log buffer"),
   [MapExistingEv large_log (3 * 2 ^ 30) 4096 (inl "EACCES")]).
Proof. vm_compute. reflexivity. Qed.

End runs.

(** ** The theorems at the first scenario of the specification *)

Section witnesses.
Import logbuffer scenario.

(** C3 at the first scenario: one mapping, three term views of 65536
    bytes, a metadata view of 4096 bytes at offset 196608. *)
Lemma Wrap_single_mapping_witness :
  exists lb,
    Wrap small_log [] = (Return lb, [] ++ [MapExistingEv small_log 0 0 (inr small_region)]) /\
    mmapFiles lb = [Some small_region] /\
    (forall (i : nat) tr2, (i < PartitionCount)%nat ->
       Buffer lb (Z.of_nat i) tr2 =
       (Return (layout.view small_region (Z.of_nat i * 65536) 65536), tr2)) /\
    (forall tr2,
       Buffer lb (Z.of_nat PartitionCount) tr2 =
       (Return (layout.view small_region (200704 - 4096) 4096), tr2)).
Proof.
  exact (Wrap_single_mapping maxSingleMappingSize logMetaDataLength TermMinLength
           termMaxLength os small_log [] 200704 small_region
           eq_refl eq_refl eq_refl eq_refl eq_refl).
Defined.

(** C4 (as the code has it) at the first scenario *)
Lemma Wrap_checks_term_length_witness :
  exists n,
    env_stat os small_log = inr n /\
    let logLength := machine.int64 n in
    let termLength := (logLength - logMetaDataLength) / Z.of_nat PartitionCount in
    (forall i : nat, (i < PartitionCount)%nat ->
       exists b, buffers small_buffers !! i = Some b /\ atomic.capacity b = termLength) /\
    (exists k, 0 <= k /\ termLength = 2 ^ k) /\
    TermMinLength <= termLength <= termMaxLength /\
    Z.of_nat PartitionCount * termLength + logMetaDataLength <= logLength
      < Z.of_nat PartitionCount * termLength + logMetaDataLength
        + Z.of_nat PartitionCount.
Proof.
  assert (Hmeta : 0 <= logMetaDataLength < 2 ^ 31) by (unfold logMetaDataLength; lia).
  assert (Hmax : termMaxLength < 2 ^ 31) by reflexivity.
  destruct (Wrap_checks_term_length maxSingleMappingSize logMetaDataLength TermMinLength
              termMaxLength os small_log [] Hmeta Hmax) as [Haccepted _].
  apply (Haccepted small_buffers [MapExistingEv small_log 0 0 (inr small_region)]).
  vm_compute. reflexivity.
Defined.

(** C6 on a [LogBuffers] with two mappings, the first of which fails to
    unmap *)
Lemma Close_twice_witness :
  ((exists files results,
      mmapFiles two_mappings = map Some files /\
      List.length results = List.length files /\
      [UnmapEv region0 (Some "EINVAL"); UnmapEv region1 None]
      = [] ++ zip_with UnmapEv files results) /\
   mmapFiles (set_mmapFiles [] two_mappings) = [] /\
   forall tr2,
     Close os_first_unmap_fails (set_mmapFiles [] two_mappings) tr2 =
     (Return (None, set_mmapFiles [] two_mappings), tr2)) /\
  (exists err lb' tr',
     Close os_first_unmap_fails two_mappings [] = (Return (err, lb'), tr')).
Proof.
  destruct (Close_twice os_first_unmap_fails two_mappings []) as [Hafter Hreturns].
  split.
  - apply (Hafter None _ [UnmapEv region0 (Some "EINVAL"); UnmapEv region1 None]).
    reflexivity.
  - apply Hreturns. repeat constructor; eexists; reflexivity.
Defined.

(** C5 (as the code has it) on the client with the default context, the
    conductor failing to close *)
Lemma aeron_Close_releases_both_witness :
  aeron.Close os_conductor_fails client [] =
  (Return None,
   ([] ++ [ConductorCloseEv (Some "conductor: close failed")]
       ++ aeron.reported (Some "conductor: close failed"))
   ++ [UnmapEv region0 None] ++ aeron.reported None).
Proof.
  destruct (aeron_Close_releases_both os_conductor_fails defaults region0 [])
    as [Hreturns _].
  apply (Hreturns (fun _ _ => None)).
  - reflexivity.
  - intros tr e. reflexivity.
Defined.

(** C7 on a file that exists but may not be mapped *)
Lemma Wrap_mapping_failure_is_fatal_witness :
  exists n,
    env_stat os_no_access small_log = inr n /\
    fst (logbuffer.Wrap maxSingleMappingSize logMetaDataLength TermMinLength
           termMaxLength os_no_access small_log []) =
    Panic (if machine.int64 n <? maxSingleMappingSize
           then PanicError "EACCES"
           else PanicString "Failed to map the log buffer").
Proof.
  apply (Wrap_mapping_failure_is_fatal maxSingleMappingSize logMetaDataLength
           TermMinLength termMaxLength os_no_access small_log []
           [MapExistingEv small_log 0 0 (inl "EACCES")] small_log 0 0 "EACCES").
  - reflexivity.
  - simpl. left. reflexivity.
Defined.

(** C9 at the first scenario *)
Lemma Meta_overlays_metadata_buffer_witness :
  LogBufferMetaData.buffer (Meta small_buffers) = Some PartitionCount /\
  LogBufferMetaData.offset (Meta small_buffers) = 0 /\
  exists b,
    (forall tr2, Buffer small_buffers (Z.of_nat PartitionCount) tr2 = (Return b, tr2)) /\
    (forall memory field,
       LogBufferMetaData.GetUInt8 memory (buffers small_buffers) (Meta small_buffers) field =
       atomic.GetUInt8 memory b field).
Proof.
  apply (Meta_overlays_metadata_buffer maxSingleMappingSize logMetaDataLength
           TermMinLength termMaxLength os small_log [] small_buffers
           [MapExistingEv small_log 0 0 (inr small_region)]).
  vm_compute. reflexivity.
Defined.

(** C10 at the first scenario *)
Lemma Wrap_returns_initialised_witness :
  exists n mmap,
    env_stat os small_log = inr n /\
    0 < computeTermLength logMetaDataLength (machine.int64 n) /\
    mmapFiles small_buffers = [Some mmap] /\
    List.length (buffers small_buffers) = (PartitionCount + 1)%nat /\
    (forall i : nat, (i < PartitionCount)%nat ->
       exists ptr,
         buffers small_buffers !! i =
         Some (atomic.Wrap atomic.zero ptr
                 (computeTermLength logMetaDataLength (machine.int64 n)))) /\
    (exists ptr,
       buffers small_buffers !! PartitionCount =
       Some (atomic.Wrap atomic.zero ptr logMetaDataLength)) /\
    Meta small_buffers = LogBufferMetaData.Wrap LogBufferMetaData.zero PartitionCount 0.
Proof.
  apply (Wrap_returns_initialised maxSingleMappingSize logMetaDataLength
           TermMinLength termMaxLength os small_log [] small_buffers
           [MapExistingEv small_log 0 0 (inr small_region)]).
  - reflexivity.
  - vm_compute. reflexivity.
Defined.

End witnesses.

(** * Further properties *)

(** ** [Wrap], [Buffer] and [Close] together *)

Section LogBuffers_properties.
Import machine machine_facts logbuffer.
Variables maxSingleMappingSize logMetaDataLength : Z.
Variables TermMinLength termMaxLength : Z.
Variable os : Env.

#[local] Abbreviation Wrap :=
  (Wrap maxSingleMappingSize logMetaDataLength TermMinLength termMaxLength os).
#[local] Abbreviation computeTermLength := (computeTermLength logMetaDataLength).
#[local] Abbreviation validTermLength := (validTermLength TermMinLength termMaxLength).

(** what [Wrap] returns holds the one handle that [MapExisting] gave, and
    four buffers *)
Lemma Wrap_returns_handle fileName tr lb tr' :
  Wrap fileName tr = (Return lb, tr') ->
  exists mmap b0 b1 b2 b3,
    env_mmap os tr fileName 0 0 = inr mmap /\
    tr' = tr ++ [MapExistingEv fileName 0 0 (inr mmap)] /\
    lb = {| mmapFiles := [Some mmap]; buffers := [b0; b1; b2; b3];
            meta := LogBufferMetaData.Wrap LogBufferMetaData.zero PartitionCount 0 |} /\
    atomic.bufferPtr b0 = uintptr (base mmap).
Proof.
  intros Hrun.
  destruct (Wrap_returns_inv _ _ _ _ _ _ _ _ _ Hrun)
    as (n & mmap & lb0 & _ & _ & _ & Hmap & Hsingle & -> & ->).
  destruct (Wrap_single_shape _ _ _ _ _ _ _ _ Hsingle)
    as (mmap' & b0 & b1 & b2 & b3 & -> & _).
  exists mmap, b0, b1, b2, b3. split; [assumption |]. split; [reflexivity |].
  revert Hsingle.
  unfold logbuffer.Wrap_single, memmap.MapExisting, bind, history, emit, ret.
  cbv zeta. rewrite Hmap.
  cbn -[int64 int32 uintptr Z.mul Z.add Z.sub Z.of_nat]. unfold ret.
  intros [= <- <- _ _ _]. split; [reflexivity |].
  cbn [atomic.bufferPtr atomic.Wrap]. rewrite uintptr_offset.
  change (int64 (Z.of_nat 0)) with 0. rewrite Z.mul_0_l, Z.add_0_r. reflexivity.
Qed.

(** X1: [Close] after a [Wrap] that returned asks for exactly one
    unmapping, that of the region [Wrap] mapped, returns what the system
    answers to it, and leaves the [LogBuffers] without a mapping. *)
Theorem Wrap_then_Close fileName tr lb tr' :
  Wrap fileName tr = (Return lb, tr') ->
  exists mmap,
    tr' = tr ++ [MapExistingEv fileName 0 0 (inr mmap)] /\
    Close os lb tr' =
    (Return (env_munmap os tr' mmap, set_mmapFiles [] lb),
     tr' ++ [UnmapEv mmap (env_munmap os tr' mmap)]).
Proof.
  intros Hrun.
  destruct (Wrap_returns_handle _ _ _ _ Hrun)
    as (mmap & b0 & b1 & b2 & b3 & _ & -> & -> & _).
  exists mmap. split; reflexivity.
Qed.

(** X2: [Close] does not invalidate the views.  After a [Wrap] that
    returned and a [Close] that returned, the unmapping of the region has
    been asked for, and yet [Meta()] and every [Buffer(i)] give what they
    gave before the [Close]; [Buffer(0)] still points at the base of the
    region. *)
Theorem views_survive_Close fileName tr lb tr1 err lb' tr2 :
  Wrap fileName tr = (Return lb, tr1) ->
  Close os lb tr1 = (Return (err, lb'), tr2) ->
  exists mmap,
    mmapFiles lb = [Some mmap] /\
    In (UnmapEv mmap err) tr2 /\
    Meta lb' = Meta lb /\
    (forall i tr3, Buffer lb' i tr3 = Buffer lb i tr3) /\
    exists b,
      (forall tr3, Buffer lb' 0 tr3 = (Return b, tr3)) /\
      atomic.bufferPtr b = uintptr (base mmap).
Proof.
  intros Hwrap Hclose.
  destruct (Wrap_returns_handle _ _ _ _ Hwrap)
    as (mmap & b0 & b1 & b2 & b3 & _ & -> & -> & Hptr).
  injection Hclose as <- <- <-.
  exists mmap. split; [reflexivity |]. split.
  { apply in_or_app. right. left. reflexivity. }
  split; [reflexivity |]. split; [reflexivity |].
  exists b0. split; [reflexivity | exact Hptr].
Qed.

(** X3: on a [LogBuffers] that [Wrap] returned, [Buffer(i)] returns a
    buffer for the indices 0 to [PartitionCount] and panics with an index
    out of range for every other index. *)
Theorem Buffer_bounds fileName tr lb tr' i tr2 :
  Wrap fileName tr = (Return lb, tr') ->
  (0 <= i <= Z.of_nat PartitionCount ->
   exists b, Buffer lb i tr2 = (Return b, tr2)) /\
  (i < 0 \/ Z.of_nat PartitionCount < i ->
   Buffer lb i tr2 = (Panic IndexOutOfRange, tr2)).
Proof.
  intros Hwrap.
  destruct (Wrap_returns_handle _ _ _ _ Hwrap)
    as (mmap & b0 & b1 & b2 & b3 & _ & _ & -> & _).
  unfold Buffer, index. cbn [buffers]. split.
  - intros [Hlo Hhi]. destruct (Z.ltb_spec i 0) as [? | _]; [lia |].
    assert (Hi : (Z.to_nat i < 4)%nat) by (unfold PartitionCount in Hhi; lia).
    destruct (Z.to_nat i) as [| [| [| [| k]]]]; [eexists; reflexivity .. | lia].
  - intros [Hneg | Hbig].
    + apply Z.ltb_lt in Hneg. rewrite Hneg. reflexivity.
    + destruct (Z.ltb_spec i 0) as [? | _]; [reflexivity |].
      assert (Hi : (4 <= Z.to_nat i)%nat) by (unfold PartitionCount in Hbig; lia).
      destruct (Z.to_nat i) as [| [| [| [| k]]]]; [lia .. | reflexivity].
Qed.

(** X4: the views of a [LogBuffers] that [Wrap] returned lie in the
    mapped file and do not overlap, as long as the file as a whole lies in
    the address space: term 0 starts at the base of the mapping, each term
    ends no later than the next view starts, and the metadata ends where
    the file ends. *)
Theorem views_in_file_and_disjoint fileName tr lb tr' :
  0 <= logMetaDataLength < 2 ^ 31 ->
  termMaxLength < 2 ^ 31 ->
  Wrap fileName tr = (Return lb, tr') ->
  exists n mmap b0 b1 b2 bm,
    env_stat os fileName = inr n /\
    mmapFiles lb = [Some mmap] /\
    buffers lb = [b0; b1; b2; bm] /\
    (0 <= base mmap -> base mmap + int64 n < 2 ^ 64 ->
     atomic.bufferPtr b0 = base mmap /\
     0 < atomic.capacity b0 /\
     atomic.bufferPtr b0 + atomic.capacity b0 <= atomic.bufferPtr b1 /\
     0 < atomic.capacity b1 /\
     atomic.bufferPtr b1 + atomic.capacity b1 <= atomic.bufferPtr b2 /\
     0 < atomic.capacity b2 /\
     atomic.bufferPtr b2 + atomic.capacity b2 <= atomic.bufferPtr bm /\
     atomic.bufferPtr bm + atomic.capacity bm = base mmap + int64 n).
Proof.
  intros Hmeta Hmax Hrun.
  destruct (Wrap_returns_inv _ _ _ _ _ _ _ _ _ Hrun)
    as (n & mmap & lb0 & Hstat & Hvalid & Hlt & Hmap & _ & _ & _).
  rewrite (Wrap_carves _ _ _ _ _ _ _ _ _ Hstat Hlt Hvalid Hmax Hmap) in Hrun.
  injection Hrun as <- _.
  destruct (computeTermLength_exact _ _ _ _ Hmeta Hmax Hvalid) as [_ Hlen].
  pose proof (validTermLength_pos _ _ _ Hvalid) as Hpos.
  change (Z.of_nat PartitionCount) with 3 in Hlen.
  exists n, mmap. do 4 eexists. split; [assumption |].
  split; [reflexivity |]. split; [reflexivity |].
  intros Hbase Hend.
  cbn [atomic.bufferPtr atomic.capacity layout.view].
  change (Z.of_nat 0) with 0. change (Z.of_nat 1) with 1. change (Z.of_nat 2) with 2.
  unfold uintptr. rewrite !Z.mod_small by lia. lia.
Qed.

End LogBuffers_properties.

(** ** More on [Wrap] and [Close] *)

Section more_LogBuffers_properties.
Import machine machine_facts logbuffer.
Variables maxSingleMappingSize logMetaDataLength : Z.
Variables TermMinLength termMaxLength : Z.
Variable os : Env.

#[local] Abbreviation Wrap :=
  (Wrap maxSingleMappingSize logMetaDataLength TermMinLength termMaxLength os).
#[local] Abbreviation computeTermLength := (computeTermLength logMetaDataLength).
#[local] Abbreviation validTermLength := (validTermLength TermMinLength termMaxLength).

(** X5: [Close] asks for the unmapping of every region it holds, in the
    order of [mmapFiles] and whatever the earlier answers were; it returns
    the answer to the last request (nil when it holds no region) and
    leaves the [LogBuffers] without a mapping. *)
Theorem Close_unmaps_every_region lb (files : list File) tr :
  mmapFiles lb = map Some files ->
  exists results,
    List.length results = List.length files /\
    Close os lb tr =
    (Return (List.last results None, set_mmapFiles [] lb),
     tr ++ zip_with UnmapEv files results).
Proof.
  intros Hfiles. destruct (Close_loop_run os files None tr) as (results & Hlen & Hrun).
  exists results. split; [assumption |].
  unfold Close, bind. rewrite Hfiles, Hrun. reflexivity.
Qed.

(** X6: a run of [Wrap] only ever asks for mappings of the file it was
    given, and for at most two of them; it never asks for an unmapping, so
    a region mapped before a panic stays mapped. *)
Theorem Wrap_only_maps fileName tr :
  exists evs,
    snd (Wrap fileName tr) = tr ++ evs /\
    (List.length evs <= 2)%nat /\
    Forall (fun e => exists offset length res,
                       e = MapExistingEv fileName offset length res) evs.
Proof.
  destruct (env_stat os fileName) as [err | n] eqn:Hstat.
  { rewrite (Wrap_stat_fails _ _ _ _ _ _ _ _ Hstat). exists [].
    cbn [snd]. rewrite app_nil_r. repeat split; [cbn; lia | constructor]. }
  destruct (validTermLength (computeTermLength (int64 n))) eqn:Hvalid.
  2:{ rewrite (Wrap_invalid _ _ _ _ _ _ _ _ Hstat Hvalid). exists [].
      cbn [snd]. rewrite app_nil_r. repeat split; [cbn; lia | constructor]. }
  rewrite (Wrap_valid _ _ _ _ _ _ _ _ Hstat Hvalid).
  destruct (int64 n <? maxSingleMappingSize).
  - exists [MapExistingEv fileName 0 0 (env_mmap os tr fileName 0 0)].
    split; [| split; [cbn; lia | repeat constructor; eauto]].
    pose proof (Wrap_single_trace logMetaDataLength os fileName (int64 n)
                  (computeTermLength (int64 n)) tr) as Hsingle.
    unfold bind.
    destruct (logbuffer.Wrap_single _ _ _ _ _ _ tr) as [[lb0 | p] tr0];
      cbn [snd] in Hsingle |- *; unfold ret; cbn [snd]; exact Hsingle.
  - unfold bind. rewrite Wrap_multi_run. cbv zeta.
    destruct (env_mmap os tr fileName _ _) as [e | mmap] eqn:Hmeta.
    + eexists [_]. split; [reflexivity |].
      split; [cbn; lia | repeat constructor; eauto].
    + match goal with
      | |- context [env_mmap os ?t fileName ?o ?l] =>
          destruct (env_mmap os t fileName o l) as [e0 | mmap0]
      end;
        (eexists [_; _]; split; [cbn [snd]; rewrite <- app_assoc; reflexivity |];
         split; [cbn; lia | repeat constructor; eauto]).
Qed.

(** X7: for a file that is not shorter than [maxSingleMappingSize],
    [Wrap] never returns a [LogBuffers]: it panics, with the term length
    rejected, with a mapping refused, or on the nil handle. *)
Theorem Wrap_large_file_panics fileName tr n :
  env_stat os fileName = inr n ->
  maxSingleMappingSize <= int64 n ->
  exists p,
    fst (Wrap fileName tr) = Panic p /\
    (p = PanicString "InvalidTermLength" \/
     p = PanicString "Failed to map the log buffer" \/
     p = NilDereference).
Proof.
  intros Hstat Hlarge.
  destruct (validTermLength (computeTermLength (int64 n))) eqn:Hvalid.
  2:{ rewrite (Wrap_invalid _ _ _ _ _ _ _ _ Hstat Hvalid). eauto. }
  rewrite (Wrap_valid _ _ _ _ _ _ _ _ Hstat Hvalid).
  destruct (Z.ltb_spec (int64 n) maxSingleMappingSize) as [? | _]; [lia |].
  unfold bind. rewrite Wrap_multi_run. cbv zeta.
  destruct (env_mmap os tr fileName _ _) as [e | mmap]; [cbn [fst]; eauto |].
  match goal with
  | |- context [env_mmap os ?t fileName ?o ?l] =>
      destruct (env_mmap os t fileName o l) as [e0 | mmap0]
  end; cbn [fst]; eauto 6.
Qed.

End more_LogBuffers_properties.

(** ** [Aeron.Close], twice *)

Section Aeron_Close_properties.
Import history.
Variable os : Env.
Variables (ctx : aeron.Context) (cnc : File).

#[local] Abbreviation a := (aeron.mkAeron (Some ctx) (Some cnc)).

Lemma same_region_refl f : same_region f f = true.
Proof. unfold same_region. rewrite !Z.eqb_refl. reflexivity. Qed.

Lemma unmaps_of_app f tr1 tr2 :
  unmaps_of f (tr1 ++ tr2) = (unmaps_of f tr1 + unmaps_of f tr2)%nat.
Proof. unfold unmaps_of. rewrite List.filter_app, List.length_app. reflexivity. Qed.

Lemma conductor_closes_app tr1 tr2 :
  conductor_closes (tr1 ++ tr2) = (conductor_closes tr1 + conductor_closes tr2)%nat.
Proof. unfold conductor_closes. rewrite List.filter_app, List.length_app. reflexivity. Qed.

Lemma reported_counts f err :
  unmaps_of f (aeron.reported err) = 0%nat /\
  conductor_closes (aeron.reported err) = 0%nat.
Proof. destruct err; split; reflexivity. Qed.

(** one [Close]: one more conductor close, one more unmapping of the CnC
    file *)
Lemma aeron_Close_counts handler tr :
  aeron.errorHandler ctx = Some handler ->
  aeron.returns_always handler ->
  exists r,
    fst (aeron.Close os a tr) = Return r /\
    unmaps_of cnc (snd (aeron.Close os a tr)) = S (unmaps_of cnc tr) /\
    conductor_closes (snd (aeron.Close os a tr)) = S (conductor_closes tr).
Proof.
  intros Hset Hreturns.
  destruct (aeron_Close_run os ctx cnc handler tr Hset Hreturns)
    as (rc & ru & _ & _ & ->).
  exists ru. cbn [fst snd]. split; [reflexivity |].
  rewrite !unmaps_of_app, !conductor_closes_app.
  destruct (reported_counts cnc rc) as [-> ->].
  destruct (reported_counts cnc ru) as [-> ->].
  unfold unmaps_of, conductor_closes. cbn [List.filter is_unmap_of is_conductor_close].
  rewrite same_region_refl. cbn [List.length]. lia.
Qed.

(** X8: [Aeron.Close] is not idempotent.  It leaves the [Aeron] as it was
    (the CnC handle is not cleared), so, with an error handler that is set
    and returns, a second [Close] returns as well, having closed the
    conductor a second time and asked for the unmapping of the same CnC
    region a second time. *)
Theorem aeron_Close_twice handler tr :
  aeron.errorHandler ctx = Some handler ->
  aeron.returns_always handler ->
  (exists r1, fst (aeron.Close os a tr) = Return r1) /\
  (exists r2, fst (aeron.Close os a (snd (aeron.Close os a tr))) = Return r2) /\
  unmaps_of cnc (snd (aeron.Close os a (snd (aeron.Close os a tr))))
    = (2 + unmaps_of cnc tr)%nat /\
  conductor_closes (snd (aeron.Close os a (snd (aeron.Close os a tr))))
    = (2 + conductor_closes tr)%nat.
Proof.
  intros Hset Hreturns.
  destruct (aeron_Close_counts handler tr Hset Hreturns) as (r1 & Hr1 & Hu1 & Hc1).
  destruct (aeron_Close_counts handler (snd (aeron.Close os a tr)) Hset Hreturns)
    as (r2 & Hr2 & Hu2 & Hc2).
  split; [eauto |]. split; [eauto |].
  rewrite Hu2, Hu1, Hc2, Hc1. split; reflexivity.
Qed.

End Aeron_Close_properties.

(** ** The goroutine of [AddSubscription] and [AddPublication] *)

Section registration_properties.
Import registration.
Context {T : Type}.
Variable conductor : Conductor T.
Variable context : option aeron.Context.

#[local] Abbreviation idles := (idles context).
#[local] Abbreviation Idle := (Idle (T := T) context).
#[local] Abbreviation spin := (spin conductor context).
#[local] Abbreviation await := (await conductor context).

Lemma Idle_returns w (s : run T) :
  idles -> Idle w s = (Return tt, record (IdleEv w) s).
Proof.
  intros (ctx & idle & -> & Hset & Hreturns).
  unfold registration.Idle. rewrite Hset, Hreturns. reflexivity.
Qed.

(** the loop, when the lookups [lookups s], ..., [lookups s + k - 1] find
    nothing and the next one ends the wait, by an object or by a panic *)
Lemma spin_ends regID (k : nat) :
  forall fuel s r,
    (forall j, (j < k)%nat ->
       conductor_find conductor (lookups s + j) regID = Return None) ->
    conductor_find conductor (lookups s + k) regID = r ->
    r <> Return None ->
    ((1 <= k)%nat -> idles) ->
    (k < fuel)%nat ->
    spin fuel regID s =
    Some (match r with
          | Return (Some x) => Return x
          | Return None => Panic NilDereference
          | Panic p => Panic p
          end,
          {| lookups := lookups s + k + 1;
             steps := steps s ++ concat (replicate k [FindEv regID; IdleEv 0])
                              ++ [FindEv regID] |}).
Proof.
  induction k as [| k IH]; intros fuel s r Hpending Hends Hr Hidles Hfuel.
  - destruct fuel as [| fuel]; [lia |].
    cbn [registration.spin]. unfold Find. rewrite Nat.add_0_r in Hends. rewrite Hends.
    rewrite !Nat.add_0_r.
    destruct r as [[x |] | p]; [| congruence |];
      (rewrite Nat.add_1_r; reflexivity).
  - destruct fuel as [| fuel]; [lia |].
    assert (Hidle : idles) by (apply Hidles; lia).
    cbn [registration.spin]. unfold Find.
    rewrite <- (Nat.add_0_r (lookups s)) at 1.
    rewrite (Hpending 0%nat) by lia.
    rewrite (Idle_returns _ _ Hidle).
    rewrite (IH fuel _ r); cbn [record lookups steps].
    + f_equal. f_equal. f_equal; [lia |].
      cbn [replicate concat]. rewrite <- !app_assoc. reflexivity.
    + intros j Hj. replace (S (lookups s) + j)%nat with (lookups s + S j)%nat by lia.
      apply Hpending. lia.
    + replace (S (lookups s) + k)%nat with (lookups s + S k)%nat by lia. exact Hends.
    + exact Hr.
    + intros _. exact Hidle.
    + lia.
Qed.

Lemma spin_forever regID :
  idles ->
  forall fuel s,
    (forall j, conductor_find conductor (lookups s + j) regID = Return None) ->
    spin fuel regID s = None.
Proof.
  intros Hidle. induction fuel as [| fuel IH]; intros s Hpending; [reflexivity |].
  cbn [registration.spin]. unfold Find.
  rewrite <- (Nat.add_0_r (lookups s)) at 1. rewrite Hpending.
  rewrite (Idle_returns _ _ Hidle).
  apply IH. intros j. cbn [record lookups].
  replace (S (lookups s) + j)%nat with (lookups s + S j)%nat by lia. apply Hpending.
Qed.

(** the body of the goroutine, started on a fresh channel of capacity 1 *)
Lemma await_resolves regID (k : nat) x fuel :
  (forall j, (j < k)%nat -> conductor_find conductor j regID = Return None) ->
  conductor_find conductor k regID = Return (Some x) ->
  ((2 <= k)%nat -> idles) ->
  (k <= fuel)%nat ->
  await fuel regID (make_chan 1) {| lookups := 0; steps := [] |} =
  Some (Done {| chan_cap := 1; chan_buf := [x]; chan_closed := true |},
        {| lookups := S k;
           steps := polling regID k ++ [SendEv x; CloseChanEv] |}).
Proof.
  intros Hpending Hfound Hidles Hfuel. unfold registration.await, Find.
  cbn [lookups steps app].
  destruct k as [| k].
  - rewrite Hfound. reflexivity.
  - rewrite (Hpending 0%nat) by lia.
    rewrite (spin_ends regID k fuel _ (Return (Some x))); cbn [lookups steps].
    + cbn [send close make_chan chan_closed chan_buf chan_cap List.length Nat.ltb
           Nat.leb app record lookups steps polling].
      unfold record. cbn [lookups steps].
      replace (1 + k + 1)%nat with (S (S k)) by lia.
      cbn [app]. rewrite <- !app_assoc. cbn [app]. reflexivity.
    + intros j Hj. apply Hpending. lia.
    + exact Hfound.
    + discriminate.
    + intros Hk. apply Hidles. lia.
    + lia.
Qed.

Lemma await_forever regID fuel :
  idles ->
  (forall j, conductor_find conductor j regID = Return None) ->
  await fuel regID (make_chan 1) {| lookups := 0; steps := [] |} = None.
Proof.
  intros Hidle Hpending. unfold registration.await, Find. cbn [lookups steps app].
  rewrite Hpending. rewrite spin_forever; [reflexivity | exact Hidle |].
  intros j. apply Hpending.
Qed.

Lemma await_panics regID (k : nat) p fuel :
  (forall j, (j < k)%nat -> conductor_find conductor j regID = Return None) ->
  conductor_find conductor k regID = Panic p ->
  ((2 <= k)%nat -> idles) ->
  (k <= fuel)%nat ->
  await fuel regID (make_chan 1) {| lookups := 0; steps := [] |} =
  Some (Panicked p, {| lookups := S k; steps := polling regID k |}).
Proof.
  intros Hpending Hfound Hidles Hfuel. unfold registration.await, Find.
  cbn [lookups steps app].
  destruct k as [| k].
  - rewrite Hfound. reflexivity.
  - rewrite (Hpending 0%nat) by lia.
    rewrite (spin_ends regID k fuel _ (Panic p)); cbn [lookups steps].
    + cbn [polling]. replace (1 + k + 1)%nat with (S (S k)) by lia. reflexivity.
    + intros j Hj. apply Hpending. lia.
    + exact Hfound.
    + discriminate.
    + intros Hk. apply Hidles. lia.
    + lia.
Qed.

(** without an idle strategy the goroutine dies at its first [Idle] *)
Lemma await_without_idle regID fuel :
  conductor_find conductor 0%nat regID = Return None ->
  conductor_find conductor 1%nat regID = Return None ->
  (context = None \/ exists ctx, context = Some ctx /\ aeron.idleStrategy ctx = None) ->
  (1 <= fuel)%nat ->
  await fuel regID (make_chan 1) {| lookups := 0; steps := [] |} =
  Some (Panicked NilDereference,
        {| lookups := 2; steps := [FindEv regID; FindEv regID] |}).
Proof.
  intros H0 H1 Hnil Hfuel. destruct fuel as [| fuel]; [lia |].
  unfold registration.await, Find. cbn [lookups steps app]. rewrite H0.
  cbn [registration.spin]. unfold Find. cbn [lookups steps app]. rewrite H1.
  unfold registration.Idle.
  destruct Hnil as [-> | (ctx & -> & ->)]; reflexivity.
Qed.

Section goroutine.
Variables (channel : string) (streamID : Z).

#[local] Abbreviation regID := (conductor_add conductor channel streamID).
#[local] Abbreviation AddSubscription :=
  (AddSubscription conductor context channel streamID).
#[local] Abbreviation AddPublication :=
  (AddPublication conductor context channel streamID).


(** X9: when lookup number [k] is the first to find the registration, and
    the idle strategy is set and returns (needed from [k = 2] on), the
    goroutine of [AddSubscription], and likewise that of
    [AddPublication], ends, given fuel for [k] turns of the loop.  It has
    made [k + 1] lookups, has called [Idle(0)] after each fruitless lookup
    but the first, has sent the object found, once, and has closed the
    channel; the send did not block: the channel, of capacity 1, then
    holds the object and is closed. *)
Theorem Add_delivers_when_found (k : nat) x fuel :
  (forall j, (j < k)%nat -> conductor_find conductor j regID = Return None) ->
  conductor_find conductor k regID = Return (Some x) ->
  ((2 <= k)%nat -> idles) ->
  (k <= fuel)%nat ->
  fst AddSubscription = make_chan 1 /\
  snd AddSubscription fuel =
    Some (Done {| chan_cap := 1; chan_buf := [x]; chan_closed := true |},
          {| lookups := S k; steps := polling regID k ++ [SendEv x; CloseChanEv] |}) /\
  fst AddPublication = make_chan 1 /\
  snd AddPublication fuel =
    Some (Done {| chan_cap := 1; chan_buf := [x]; chan_closed := true |},
          {| lookups := S k; steps := polling regID k ++ [SendEv x; CloseChanEv] |}).
Proof.
  intros Hpending Hfound Hidles Hfuel.
  pose proof (await_resolves _ k x fuel Hpending Hfound Hidles Hfuel) as Hrun.
  repeat split; exact Hrun.
Qed.

(** X10: when no lookup ever finds the registration and the idle strategy
    is set and returns, the goroutine never ends, however much fuel it is
    given: there is no deadline in the loop.  Nothing is sent and the
    channel is not closed. *)
Theorem Add_spins_while_pending fuel :
  (forall j, conductor_find conductor j regID = Return None) ->
  idles ->
  snd AddSubscription fuel = None /\
  snd AddPublication fuel = None.
Proof.
  intros Hpending Hidle.
  pose proof (await_forever _ fuel Hidle Hpending) as Hrun. split; exact Hrun.
Qed.

(** X11: when a lookup panics before any lookup has found the
    registration, and the idle strategy is set and returns (needed when
    the panic comes at lookup 2 or later), the goroutine ends in that
    panic; it has sent nothing and has not closed the channel. *)
Theorem Add_panics_with_Find (k : nat) p fuel :
  (forall j, (j < k)%nat -> conductor_find conductor j regID = Return None) ->
  conductor_find conductor k regID = Panic p ->
  ((2 <= k)%nat -> idles) ->
  (k <= fuel)%nat ->
  snd AddSubscription fuel =
    Some (Panicked p, {| lookups := S k; steps := polling regID k |}) /\
  snd AddPublication fuel =
    Some (Panicked p, {| lookups := S k; steps := polling regID k |}).
Proof.
  intros Hpending Hfound Hidles Hfuel.
  pose proof (await_panics _ k p fuel Hpending Hfound Hidles Hfuel) as Hrun.
  split; exact Hrun.
Qed.

(** X12: when the context is nil or has no idle strategy and the first
    two lookups find nothing, the goroutine dies of a nil dereference at
    its first [Idle], after exactly two lookups; it has sent nothing and
    has not closed the channel. *)
Theorem Add_dies_without_idle_strategy fuel :
  conductor_find conductor 0%nat regID = Return None ->
  conductor_find conductor 1%nat regID = Return None ->
  (context = None \/ exists ctx, context = Some ctx /\ aeron.idleStrategy ctx = None) ->
  (1 <= fuel)%nat ->
  snd AddSubscription fuel =
    Some (Panicked NilDereference,
          {| lookups := 2; steps := [FindEv regID; FindEv regID] |}) /\
  snd AddPublication fuel =
    Some (Panicked NilDereference,
          {| lookups := 2; steps := [FindEv regID; FindEv regID] |}).
Proof.
  intros H0 H1 Hnil Hfuel.
  pose proof (await_without_idle _ fuel H0 H1 Hnil Hfuel) as Hrun.
  split; exact Hrun.
Qed.

End goroutine.

End registration_properties.

(** ** The further properties on concrete inputs *)

Section more_witnesses.
Import logbuffer scenario.

#[local] Abbreviation mapped := [MapExistingEv small_log 0 0 (inr small_region)].

(** X1 at the first scenario *)
Lemma Wrap_then_Close_witness :
  exists mmap,
    mapped = [] ++ [MapExistingEv small_log 0 0 (inr mmap)] /\
    Close os small_buffers mapped =
    (Return (env_munmap os mapped mmap, set_mmapFiles [] small_buffers),
     mapped ++ [UnmapEv mmap (env_munmap os mapped mmap)]).
Proof.
  apply (Wrap_then_Close maxSingleMappingSize logMetaDataLength TermMinLength
           termMaxLength os small_log [] small_buffers mapped).
  vm_compute. reflexivity.
Defined.

(** X2 at the first scenario, the unmapping failing *)
Lemma views_survive_Close_witness :
  exists mmap,
    mmapFiles small_buffers = [Some mmap] /\
    In (UnmapEv mmap (Some "EINVAL"))
       (mapped ++ [UnmapEv small_region (Some "EINVAL")]) /\
    Meta (set_mmapFiles [] small_buffers) = Meta small_buffers /\
    (forall i tr3,
       Buffer (set_mmapFiles [] small_buffers) i tr3 = Buffer small_buffers i tr3) /\
    exists b,
      (forall tr3, Buffer (set_mmapFiles [] small_buffers) 0 tr3 = (Return b, tr3)) /\
      atomic.bufferPtr b = machine.uintptr (base mmap).
Proof.
  apply (views_survive_Close maxSingleMappingSize logMetaDataLength TermMinLength
           termMaxLength os_unmap_fails small_log [] small_buffers mapped
           (Some "EINVAL") (set_mmapFiles [] small_buffers)
           (mapped ++ [UnmapEv small_region (Some "EINVAL")])).
  - vm_compute. reflexivity.
  - vm_compute. reflexivity.
Defined.

(** X3 at the first scenario, for the index 4 *)
Lemma Buffer_bounds_witness :
  (0 <= 4 <= Z.of_nat PartitionCount ->
   exists b, Buffer small_buffers 4 [] = (Return b, [])) /\
  (4 < 0 \/ Z.of_nat PartitionCount < 4 ->
   Buffer small_buffers 4 [] = (Panic IndexOutOfRange, [])).
Proof.
  apply (Buffer_bounds maxSingleMappingSize logMetaDataLength TermMinLength
           termMaxLength os small_log [] small_buffers mapped 4 []).
  vm_compute. reflexivity.
Defined.

(** X4 at the first scenario *)
Lemma views_in_file_and_disjoint_witness :
  exists n mmap b0 b1 b2 bm,
    env_stat os small_log = inr n /\
    mmapFiles small_buffers = [Some mmap] /\
    buffers small_buffers = [b0; b1; b2; bm] /\
    (0 <= base mmap -> base mmap + machine.int64 n < 2 ^ 64 ->
     atomic.bufferPtr b0 = base mmap /\
     0 < atomic.capacity b0 /\
     atomic.bufferPtr b0 + atomic.capacity b0 <= atomic.bufferPtr b1 /\
     0 < atomic.capacity b1 /\
     atomic.bufferPtr b1 + atomic.capacity b1 <= atomic.bufferPtr b2 /\
     0 < atomic.capacity b2 /\
     atomic.bufferPtr b2 + atomic.capacity b2 <= atomic.bufferPtr bm /\
     atomic.bufferPtr bm + atomic.capacity bm = base mmap + machine.int64 n).
Proof.
  apply (views_in_file_and_disjoint maxSingleMappingSize logMetaDataLength
           TermMinLength termMaxLength os small_log [] small_buffers mapped).
  - unfold logMetaDataLength. lia.
  - reflexivity.
  - vm_compute. reflexivity.
Defined.

(** X5 on two mappings *)
Lemma Close_unmaps_every_region_witness :
  exists results,
    List.length results = List.length [region0; region1] /\
    Close os_unmap_fails two_mappings [] =
    (Return (List.last results None, set_mmapFiles [] two_mappings),
     [] ++ zip_with UnmapEv [region0; region1] results).
Proof.
  apply (Close_unmaps_every_region os_unmap_fails two_mappings [region0; region1] []).
  reflexivity.
Defined.

(** X7 at the second scenario *)
Lemma Wrap_large_file_panics_witness :
  exists p,
    fst (Wrap large_log []) = Panic p /\
    (p = PanicString "InvalidTermLength" \/
     p = PanicString "Failed to map the log buffer" \/
     p = NilDereference).
Proof.
  apply (Wrap_large_file_panics maxSingleMappingSize logMetaDataLength TermMinLength
           termMaxLength os large_log [] (3 * 2 ^ 30 + 4096)).
  - reflexivity.
  - vm_compute. discriminate.
Defined.

End more_witnesses.

Section registration_witnesses.
Import registration.

#[local] Abbreviation uri := "aeron:udp?endpoint=localhost:40123".
#[local] Abbreviation ready := (Some scenario.defaults).
#[local] Abbreviation bare := (Some scenario.no_defaults).

Lemma defaults_idle : idles ready.
Proof.
  exists scenario.defaults, (fun _ _ => None).
  split; [reflexivity |]. split; [reflexivity |]. intros n w. reflexivity.
Defined.



(** X9 with a registration found at the fourth lookup *)
Lemma Add_delivers_when_found_witness :
  fst (AddSubscription conductors.slow ready uri 1001) = make_chan 1 /\
  snd (AddSubscription conductors.slow ready uri 1001) 3%nat
    = Some (Done {| chan_cap := 1; chan_buf := ["subscription 7"]; chan_closed := true |},
            {| lookups := 4;
               steps := polling 7 3 ++ [SendEv "subscription 7"; CloseChanEv] |}) /\
  fst (AddPublication conductors.slow ready uri 1001) = make_chan 1 /\
  snd (AddPublication conductors.slow ready uri 1001) 3%nat
    = Some (Done {| chan_cap := 1; chan_buf := ["subscription 7"]; chan_closed := true |},
            {| lookups := 4;
               steps := polling 7 3 ++ [SendEv "subscription 7"; CloseChanEv] |}).
Proof.
  apply (Add_delivers_when_found conductors.slow ready uri 1001 3 "subscription 7" 3).
  - intros j Hj. destruct j as [| [| [| j]]]; [reflexivity .. | lia].
  - reflexivity.
  - intros _. exact defaults_idle.
  - lia.
Defined.

(** X10 with a driver that never answers *)
Lemma Add_spins_while_pending_witness :
  snd (AddSubscription conductors.deaf ready uri 1001) 1000%nat = None /\
  snd (AddPublication conductors.deaf ready uri 1001) 1000%nat = None.
Proof.
  apply (Add_spins_while_pending conductors.deaf ready uri 1001 1000).
  - intros j. reflexivity.
  - exact defaults_idle.
Defined.

(** X11 with a lookup that panics at the third lookup *)
Lemma Add_panics_with_Find_witness :
  snd (AddSubscription conductors.failing ready uri 1001) 2%nat
    = Some (Panicked (PanicString "DriverTimeout"),
            {| lookups := 3; steps := polling (T := string) 7 2 |}) /\
  snd (AddPublication conductors.failing ready uri 1001) 2%nat
    = Some (Panicked (PanicString "DriverTimeout"),
            {| lookups := 3; steps := polling (T := string) 7 2 |}).
Proof.
  apply (Add_panics_with_Find conductors.failing ready uri 1001 2
           (PanicString "DriverTimeout") 2).
  - intros j Hj. destruct j as [| [| j]]; [reflexivity .. | lia].
  - reflexivity.
  - intros _. exact defaults_idle.
  - lia.
Defined.

(** X12 on the context without defaults *)
Lemma Add_dies_without_idle_strategy_witness :
  snd (AddSubscription conductors.slow bare uri 1001) 3%nat
    = Some (Panicked NilDereference,
            {| lookups := 2; steps := [FindEv 7; FindEv 7] |}) /\
  snd (AddPublication conductors.slow bare uri 1001) 3%nat
    = Some (Panicked NilDereference,
            {| lookups := 2; steps := [FindEv 7; FindEv 7] |}).
Proof.
  apply (Add_dies_without_idle_strategy conductors.slow bare uri 1001 3).
  - reflexivity.
  - reflexivity.
  - right. exists scenario.no_defaults. split; reflexivity.
  - lia.
Defined.

(** X8 on the client with the default context *)
Lemma aeron_Close_twice_witness :
  (exists r1, fst (aeron.Close scenario.os_conductor_fails scenario.client []) = Return r1) /\
  (exists r2,
     fst (aeron.Close scenario.os_conductor_fails scenario.client
            (snd (aeron.Close scenario.os_conductor_fails scenario.client [])))
     = Return r2) /\
  history.unmaps_of scenario.region0
    (snd (aeron.Close scenario.os_conductor_fails scenario.client
            (snd (aeron.Close scenario.os_conductor_fails scenario.client []))))
    = (2 + history.unmaps_of scenario.region0 [])%nat /\
  history.conductor_closes
    (snd (aeron.Close scenario.os_conductor_fails scenario.client
            (snd (aeron.Close scenario.os_conductor_fails scenario.client []))))
    = (2 + history.conductor_closes [])%nat.
Proof.
  apply (aeron_Close_twice scenario.os_conductor_fails scenario.defaults
           scenario.region0 (fun _ _ => None) []).
  - reflexivity.
  - intros tr e. reflexivity.
Defined.

End registration_witnesses.
